(** * Spirometry curve derivation: a shallow embedding of
      [regle/generate_ukb_3066_demo_dataset.py]

    The development follows the Python module function by function:
    [trim_records], [compute_volume], [compute_flow], [derive_base_curves],
    [right_pad_array], [compute_time], [compute_flow_volume], [compute_fef],
    [derive_input_representations], [build_npy_files] with its three helpers,
    and their composition in [main].  [write_npy_files] and the command-line
    flags only touch the file system and are not modelled.

    Modelling conventions.
    - Python exceptions are the constructors of [exn]; a call that can raise
      returns a [result].
    - Raw series samples are integers ([Z]).  NumPy floating-point values are
      modelled by exact rationals ([Q]): rounding, infinities and NaN are not
      part of this model, which is used for the properties that do not depend
      on them (structure, lengths, order, success and failure).  The fractions
      [0.25], [0.50] and [0.75] are the rationals [1#4], [1#2] and [3#4] (all
      three are exact binary floats).
    - Where a property is about the computed floating-point values, module
      [IEEE] gives the function over IEEE 754 binary32 and binary64 numbers,
      with NumPy's roundings and conversions written out.
    - A record is a Python [dict]; the records passed to [trim_records] are
      references into a heap of dicts, so that in-place updates and aliasing
      between list entries are visible.
    - The dataframe functions apply one function to every row; they are
      modelled by what they compute for one row, and a dataframe is the list
      of its rows. *)

From Stdlib Require Import ZArith QArith Qminmax Lqa Lia.
From Stdlib Require SpecFloat.
From stdpp Require Import base option list gmap strings.

Local Open Scope Z_scope.

(** ** Exceptions and results *)

Inductive exn : Set :=
  | AssertionError
  | ValueError
  | KeyError
  | IndexError
  | TypeError.

Inductive result (A : Type) : Type :=
  | Ok (a : A)
  | Raise (e : exn).
Arguments Ok {A} a.
Arguments Raise {A} e.

#[global] Instance result_ret : MRet result := fun _ a => Ok a.
#[global] Instance result_bind : MBind result := fun _ _ f m =>
  match m with
  | Ok a => f a
  | Raise e => Raise e
  end.

(** [assert b] *)
Definition py_assert (b : bool) : result unit :=
  if b then Ok tt else Raise AssertionError.

Definition is_ok {A} (r : result A) : Prop := ∃ a, r = Ok a.

(** ** Python sequences *)

Module Py.

(** [len(l)] *)
Definition len {A} (l : list A) : Z := Z.of_nat (length l).

(** A slice bound [k] clamped to the sequence, as Python does for
    [l[k:]] and [l[:k]]: negative bounds count from the end. *)
Definition clamp {A} (l : list A) (k : Z) : nat :=
  if k <? 0 then Z.to_nat (Z.max 0 (len l + k))
  else Z.to_nat (Z.min k (len l)).

(** [l[:k]] *)
Definition slice_to {A} (l : list A) (k : Z) : list A :=
  take (clamp l k) l.

(** [l[k:]] *)
Definition slice_from {A} (l : list A) (k : Z) : list A :=
  drop (clamp l k) l.

(** [l[a:b]] *)
Definition slice {A} (l : list A) (a b : Z) : list A :=
  take (clamp l b - clamp l a) (drop (clamp l a) l).

(** [l[i]] for a non-negative index [i]. *)
Definition index {A} (l : list A) (i : nat) : result A :=
  match l !! i with
  | Some x => Ok x
  | None => Raise IndexError
  end.

End Py.

(** ** Records and the heap *)

(** The values stored in a blow record: identifiers and the point count are
    integers, the series is a sequence of integers. *)
Inductive pyval : Type :=
  | PyInt (n : Z)
  | PySeq (a : list Z).

#[global] Instance pyval_eq_dec : EqDecision pyval.
Proof. solve_decision. Defined.

Abbreviation dict := (gmap string pyval).
Abbreviation loc := nat (only parsing).
Abbreviation heap := (gmap loc dict).

Definition SPIRO_RECORD_EID_KEY : string := "eid".
Definition SPIRO_RECORD_VISIT_ID_KEY : string := "visit_id".
Definition SPIRO_RECORD_BLOW_ORDER_KEY : string := "blow_order".
Definition SPIRO_RECORD_BLOW_INDEX_KEY : string := "blow_index".
Definition SPIRO_RECORD_BLOW_NUM_POINTS_KEY : string := "num_points".
Definition SPIRO_RECORD_SERIES_KEY : string := "series".

(** The dict a reference points to.  Python has no dangling references; a
    location outside the heap reads as the empty dict. *)
Definition deref (h : heap) (r : loc) : dict := default ∅ (h !! r).

(** [record[key]] *)
Definition getitem (record : dict) (key : string) : result pyval :=
  match record !! key with
  | Some v => Ok v
  | None => Raise KeyError
  end.

(** [record[key] = v], on the dict at [r]. *)
Definition setitem (h : heap) (r : loc) (key : string) (v : pyval) : heap :=
  <[r := <[key := v]> (deref h r)]> h.

Definition as_seq (v : pyval) : result (list Z) :=
  match v with
  | PySeq a => Ok a
  | PyInt _ => Raise TypeError
  end.

Definition as_int (v : pyval) : result Z :=
  match v with
  | PyInt n => Ok n
  | PySeq _ => Raise TypeError
  end.

(** A dataframe built from a list of dicts: one row per record, holding the
    record's entries at the time of construction. *)
Abbreviation DataFrame := (list dict).

(** ** [trim_records] *)

(** The body of the loop up to the assignment: the trimmed series of one
    record, or the exception raised on the way. *)
Definition trimmed_series_of (record : dict) : result (list Z) :=
  series_v ← getitem record SPIRO_RECORD_SERIES_KEY;
  num_points_v ← getitem record SPIRO_RECORD_BLOW_NUM_POINTS_KEY;
  series ← as_seq series_v;
  num_points ← as_int num_points_v;
  let num_zeros := Py.len series - num_points in
  _ ← py_assert (bool_decide
         (({[ 0 ]} : gset Z) = list_to_set (Py.slice_to series num_zeros)));
  let trimmed_series := Py.slice_from series (- (num_points + 1)) in
  first ← Py.index trimmed_series 0;
  _ ← py_assert (0 =? first);
  Ok trimmed_series.

(** [for record in records: ...], threading the heap.  An exception stops the
    loop; the updates made before it stay. *)
Fixpoint trim_loop (h : heap) (records : list loc) : heap * result unit :=
  match records with
  | [] => (h, Ok tt)
  | record :: rest =>
      match trimmed_series_of (deref h record) with
      | Raise e => (h, Raise e)
      | Ok trimmed_series =>
          trim_loop
            (setitem h record SPIRO_RECORD_SERIES_KEY (PySeq trimmed_series))
            rest
      end
  end.

Definition trim_records (h : heap) (records : list loc)
  : heap * result DataFrame :=
  let '(h', r) := trim_loop h records in
  (h', _ ← r; Ok (deref h' <$> records)).

(** ** Curve derivation *)

(** [compute_volume]: rescale the integer series to litres, for a scale that
    is a Python [float] as the signature declares.  The products are exact
    here; [IEEE.compute_volume] rounds them as the code does. *)
Definition compute_volume (series : list Z) (volume_scale : Q) : list Q :=
  (λ s, inject_Z s * volume_scale)%Q <$> series.

(** [np.diff(a)]: successive differences, one element shorter than [a]. *)
Fixpoint np_diff (a : list Q) : list Q :=
  match a with
  | x :: (y :: _) as tl => (y - x)%Q :: np_diff tl
  | _ => []
  end.

(** [compute_flow]: [np.concatenate(([0.0], np.diff(volume) / time_scale))],
    with exact differences and quotients; [IEEE.compute_flow] rounds them as
    the code does. *)
Definition compute_flow (volume : list Q) (time_scale : Q) : list Q :=
  0%Q :: ((λ d, d / time_scale)%Q <$> np_diff volume).

(** [np.maximum(a, b)] and [np.minimum(a, b)] on scalars. *)
Definition np_maximum (a b : Q) : Q := if Qle_bool a b then b else a.
Definition np_minimum (a b : Q) : Q := if Qle_bool a b then a else b.

(** [np.max(a)]; NumPy raises [ValueError] on an empty array. *)
Definition np_max (a : list Q) : result Q :=
  match a with
  | [] => Raise ValueError
  | x :: tl => Ok (foldl np_maximum x tl)
  end.

(** [np.min(a)] *)
Definition np_min (a : list Q) : result Q :=
  match a with
  | [] => Raise ValueError
  | x :: tl => Ok (foldl np_minimum x tl)
  end.

(** The per-row part of [derive_base_curves]. *)
Record base_curves : Type := BaseCurves {
  volume : list Q;
  volume_max : Q;
  volume_last : Q;
  flow : list Q;
  flow_max : Q;
  flow_last : Q;
}.

Definition derive_base_curves_row (series : list Z) (volume_scale time_scale : Q)
  : result base_curves :=
  let volume := compute_volume series volume_scale in
  volume_max ← np_max volume;
  volume_last ← Py.index volume (pred (length volume));
  let flow := compute_flow volume time_scale in
  flow_max ← np_max flow;
  flow_last ← Py.index flow (pred (length flow));
  Ok (BaseCurves volume volume_max volume_last flow flow_max flow_last).

(** ** [right_pad_array] *)

(** NumPy stores a value in an array by converting it to the array's element
    type.  [astype] is that conversion from values of type [B] to elements of
    type [A]: a value that already has the element type is stored as it is, an
    integer stored in a float array becomes the float of the same value, and a
    float stored in an integer array is truncated towards zero (the C cast). *)
Class AsType (B A : Type) := astype : B → A.

#[global] Instance astype_same {A} : AsType A A := λ x, x.
#[global] Instance astype_int_float : AsType Z Q := inject_Z.
#[global] Instance astype_float_int : AsType Q Z :=
  λ q, Z.quot (Qnum q) (Z.pos (Qden q)).

(** [np.pad(array, (0, width), mode='constant', constant_values=c)]: the
    padding holds [c] converted to the array's element type; a negative pad
    width is a [ValueError]. *)
Definition np_pad_right {A B} `{!AsType B A} (array : list A) (width : Z)
    (c : B) : result (list A) :=
  if width <? 0 then Raise ValueError
  else Ok (array ++ replicate (Z.to_nat width) (astype c)).

Definition right_pad_array {A B} `{!AsType B A} (array : list A)
    (pad_value : B) (max_num_points : Z) : result (list A) :=
  let array := Py.slice_to array (Z.min (Py.len array) max_num_points) in
  np_pad_right array (max_num_points - Py.len array) pad_value.

(** ** [compute_time] and [compute_flow_volume] *)

(** [np.linspace(start, stop, num, endpoint)], following NumPy's
    implementation: the grid [arange(num) * step + start], with the last
    point overwritten by [stop] when the end point is included. *)
Definition np_linspace (start stop : Q) (num : Z) (endpoint : bool)
  : result (list Q) :=
  if num <? 0 then Raise ValueError
  else
    let div := if endpoint then num - 1 else num in
    let delta := (stop - start)%Q in
    let y := inject_Z <$> seqZ 0 num in
    let y :=
      if 0 <? div then
        let step := (delta / inject_Z div)%Q in
        if Qeq_bool step 0 then (λ i, i / inject_Z div * delta)%Q <$> y
        else (λ i, i * step)%Q <$> y
      else (λ i, i * delta)%Q <$> y in
    let y := (λ v, v + start)%Q <$> y in
    Ok (if endpoint && (1 <? num) then <[Z.to_nat (num - 1) := stop]> y
        else y).

(** [compute_time]:
    [time_scale * np.linspace(0, N, num=N, endpoint=False, dtype=np.float32)],
    in exact arithmetic (the code rounds the instants to [float32]). *)
Definition compute_time (max_num_points : Z) (time_scale : Q)
  : result (list Q) :=
  grid ← np_linspace 0%Q (inject_Z max_num_points) max_num_points false;
  Ok ((λ t, time_scale * t)%Q <$> (grid : list Q)).

(** [np.maximum.accumulate(a)]: the running maximum. *)
Fixpoint maximum_accumulate_from (m : Q) (a : list Q) : list Q :=
  match a with
  | [] => []
  | x :: tl => let m' := np_maximum m x in m' :: maximum_accumulate_from m' tl
  end.

Definition np_maximum_accumulate (a : list Q) : list Q :=
  match a with
  | [] => []
  | x :: tl => x :: maximum_accumulate_from x tl
  end.

(** The index search of [np.interp] for a key inside [[xp[0], xp[-1]]]:
    the number of entries of [xp[1:]] passed before one exceeds the key.  On a
    non-decreasing [xp] this is the index [j] with [xp[j] <= key < xp[j+1]]
    that NumPy's bisection returns. *)
Fixpoint interp_search (key : Q) (tl : list Q) : nat :=
  match tl with
  | [] => O
  | a :: tl' => if Qle_bool a key then S (interp_search key tl') else O
  end.

(** One query point of [np.interp(x, xp, fp, left, right)]: [left] below
    [xp[0]], [right] above [xp[-1]], linear interpolation between the
    neighbouring sample points otherwise. *)
Definition interp_point (xp fp : list Q) (left right : Q) (x : Q) : Q :=
  let n := length xp in
  let x_first := nth 0 xp 0%Q in
  let x_last := nth (pred n) xp 0%Q in
  if (n =? 1)%nat then
    if negb (Qle_bool x_first x) then left
    else if negb (Qle_bool x x_first) then right
    else nth 0 fp 0%Q
  else if negb (Qle_bool x x_last) then right
  else if negb (Qle_bool x_first x) then left
  else
    let j := interp_search x (tail xp) in
    if (j =? pred n)%nat then nth j fp 0%Q
    else if Qeq_bool (nth j xp 0%Q) x then nth j fp 0%Q
    else
      let slope :=
        ((nth (S j) fp 0 - nth j fp 0) / (nth (S j) xp 0 - nth j xp 0))%Q in
      (slope * (x - nth j xp 0) + nth j fp 0)%Q.

(** [np.interp]: an empty [xp], or [fp] and [xp] of different lengths, is a
    [ValueError]. *)
Definition np_interp (x xp fp : list Q) (left right : Q) : result (list Q) :=
  if (length xp =? 0)%nat then Raise ValueError
  else if negb (length fp =? length xp)%nat then Raise ValueError
  else Ok (interp_point xp fp left right <$> x).

Definition compute_flow_volume (flow volume : list Q)
    (min_volume max_volume : Q) (num_points : Z) : result (list Q) :=
  let monotonic_volume := np_maximum_accumulate volume in
  _ ← py_assert (forallb (Qle_bool 0) (np_diff monotonic_volume));
  volume_interp_intervals ← np_linspace min_volume max_volume num_points true;
  np_interp volume_interp_intervals monotonic_volume flow 0%Q 0%Q.

(** ** [compute_fef] *)

(** [np.argmax] of a boolean array: the index of the first [True], [0] when
    there is none; an empty array is a [ValueError]. *)
Definition np_argmax (b : list bool) : result nat :=
  match b with
  | [] => Raise ValueError
  | _ => Ok (default O (fst <$> list_find Is_true b))
  end.

(** [a.mean()]: the sum over the number of elements.  (NumPy yields NaN on an
    empty array, the rational model yields [0]; [compute_fef] never takes the
    mean of an empty slice, its index assertion comes first.) *)
Definition np_mean (a : list Q) : Q :=
  (foldr Qplus 0 a / inject_Z (Py.len a))%Q.

(** [a >= t], an array compared with a scalar element by element. *)
Definition np_ge (a : list Q) (t : Q) : list bool :=
  (λ v, Qle_bool t v) <$> a.

Definition compute_fef (flow volume : list Q) (volume_max : Q)
  : result (Q * Q * Q * Q) :=
  let flow_size := Py.len flow in
  _ ← py_assert (flow_size =? Py.len volume);
  _ ← py_assert (1 <? flow_size);
  let volumes_over_25 := np_ge volume ((1 # 4) * volume_max)%Q in
  let volumes_over_50 := np_ge volume ((1 # 2) * volume_max)%Q in
  let volumes_over_75 := np_ge volume ((3 # 4) * volume_max)%Q in
  if negb (existsb id volumes_over_75) then Raise ValueError
  else
    idx_25 ← np_argmax volumes_over_25;
    idx_50 ← np_argmax volumes_over_50;
    idx_75 ← np_argmax volumes_over_75;
    _ ← py_assert ((idx_25 <=? idx_50)%nat && (idx_50 <=? idx_75)%nat
                   && (Z.of_nat idx_75 <? flow_size));
    fef25 ← Py.index flow idx_25;
    fef50 ← Py.index flow idx_50;
    fef75 ← Py.index flow idx_75;
    let fef25_75 :=
      np_mean (Py.slice flow (Z.of_nat idx_25) (Z.of_nat idx_75 + 1)) in
    Ok (fef25, fef50, fef75, fef25_75).

(** The call of [compute_fef] in [derive_input_representations], on one row
    of the dataframe returned by [derive_base_curves]. *)
Definition blow_fef (row : base_curves) : result (Q * Q * Q * Q) :=
  compute_fef row.(flow) row.(volume) row.(volume_max).

(** ** Vocabulary of the specification *)

(** The data model's invariant of a blow record: at least one real point, no
    more real points than samples, and zeros before the real points. *)
Definition blow_invariant (record : dict) : Prop :=
  ∃ series num_points,
    record !! SPIRO_RECORD_SERIES_KEY = Some (PySeq series) ∧
    record !! SPIRO_RECORD_BLOW_NUM_POINTS_KEY = Some (PyInt num_points) ∧
    1 ≤ num_points ∧ num_points ≤ Py.len series ∧
    ∀ (i : nat) x, Z.of_nat i < Py.len series - num_points →
                   series !! i = Some x → x = 0.

(** The series is strictly longer than its real points: the zero prefix is
    not empty. *)
Definition has_padding (record : dict) : Prop :=
  ∃ series num_points,
    record !! SPIRO_RECORD_SERIES_KEY = Some (PySeq series) ∧
    record !! SPIRO_RECORD_BLOW_NUM_POINTS_KEY = Some (PyInt num_points) ∧
    num_points < Py.len series.

Definition padded_blow (record : dict) : Prop :=
  blow_invariant record ∧ has_padding record.

(** [i] is the smallest index whose volume sample reaches [threshold]. *)
Definition first_crossing (volume : list Q) (threshold : Q) (i : nat) : Prop :=
  (∃ v, volume !! i = Some v ∧ (threshold <= v)%Q) ∧
  ∀ (j : nat) v, (j < i)%nat → volume !! j = Some v → ¬ (threshold <= v)%Q.

(** Some sample reaches [threshold]. *)
Definition reaches (volume : list Q) (threshold : Q) : Prop :=
  ∃ (i : nat) v, volume !! i = Some v ∧ (threshold <= v)%Q.

(** The arithmetic mean of [flow[a]], ..., [flow[b]]. *)
Definition mean_over_range (flow : list Q) (a b : nat) : Q :=
  (foldr Qplus 0 ((λ k, nth k flow 0) <$> seq a (S b - a))
   / inject_Z (Z.of_nat (S b - a)))%Q.

(** ** Sample data *)

(** The record of the specification's end-to-end example. *)
Definition example_record : dict :=
  {[ SPIRO_RECORD_BLOW_NUM_POINTS_KEY := PyInt 4;
     SPIRO_RECORD_SERIES_KEY := PySeq [0; 0; 0; 1; 2; 3; 4] ]}.

Definition example_heap : heap := {[ 0%nat := example_record ]}.

(** A record whose series consists of real points only. *)
Definition unpadded_record : dict :=
  {[ SPIRO_RECORD_BLOW_NUM_POINTS_KEY := PyInt 2;
     SPIRO_RECORD_SERIES_KEY := PySeq [0; 7] ]}.

Definition unpadded_heap : heap := {[ 0%nat := unpadded_record ]}.

(** ** Module constants *)

(** Decimal constants of the module, as exact rationals. *)
Definition TIME_SCALE : Q := 1 # 100.
Definition VOLUME_SCALE : Q := 1 # 1000.
Definition MAX_NUM_POINTS : Z := 1000.
Definition MAX_INTERP_VOLUME : Q := 658 # 100.

(** ** Floating-point values *)

(** IEEE 754 binary floating-point numbers with the operations of the
    Standard Library's [SpecFloat]: every operation rounds its exact result
    to the nearest number of the format, ties to even, and gives infinities
    and NaN as the standard says. *)
Module IEEE.

Abbreviation float := SpecFloat.spec_float.

(** The floating-point dtypes of the module: [np.float32] and [np.float64];
    a Python [float] is a [float64]. *)
Inductive dtype : Type := float32 | float64.

Definition prec (dt : dtype) : Z :=
  match dt with float32 => 24 | float64 => 53 end.

Definition emax (dt : dtype) : Z :=
  match dt with float32 => 128 | float64 => 1024 end.

(** [x.astype(dt)]: the number of the format nearest to [x]. *)
Definition astype (dt : dtype) (x : float) : float :=
  match x with
  | SpecFloat.S754_finite s m e =>
      SpecFloat.binary_round (prec dt) (emax dt) s m e
  | _ => x
  end.

(** [float(z)] for an integer [z]. *)
Definition of_int (z : Z) : float :=
  SpecFloat.binary_normalize (prec float64) (emax float64) z 0 false.

(** An element of an array of dtype [dt], and what NumPy stores when such an
    array is given a Python [float] or a Python [int]: the number of the
    format nearest to it. *)
Record elem (dt : dtype) : Type := Elem { float_of : float }.
Arguments Elem {dt} _.
Arguments float_of {dt} _.

#[global] Instance astype_float_elem {dt} : AsType float (elem dt) :=
  λ x, Elem (astype dt x).
#[global] Instance astype_int_elem {dt} : AsType Z (elem dt) :=
  λ z, Elem (SpecFloat.binary_normalize (prec dt) (emax dt) z 0 false).

(** The Python [float] written as the decimal fraction [n / d], for
    integers that are floats themselves: the [float64] nearest to the
    fraction. *)
Definition literal (n d : Z) : float :=
  SpecFloat.SFdiv (prec float64) (emax float64) (of_int n) (of_int d).

Definition mul (dt : dtype) (x y : float) : float :=
  SpecFloat.SFmul (prec dt) (emax dt) x y.

Definition sub (dt : dtype) (x y : float) : float :=
  SpecFloat.SFsub (prec dt) (emax dt) x y.

Definition div (dt : dtype) (x y : float) : float :=
  SpecFloat.SFdiv (prec dt) (emax dt) x y.

Definition is_finite (x : float) : bool :=
  match x with
  | SpecFloat.S754_zero _ | SpecFloat.S754_finite _ _ _ => true
  | _ => false
  end.

(** The real number a finite float stands for. *)
Definition to_Q (x : float) : Q :=
  match x with
  | SpecFloat.S754_finite s m e =>
      (inject_Z (if s then Z.neg m else Z.pos m) * 2 ^ e)%Q
  | _ => 0%Q
  end.

(** The dtype of [array op scalar] for an array of dtype [dt] and a Python
    [float], by NumPy 1.x's value-based casting: the array's dtype, unless
    the scalar is finite and outside the open interval
    [(-3.4e38, 3.4e38)], which makes the result [float64]. *)
Definition result_type (dt : dtype) (scalar : float) : dtype :=
  match dt with
  | float64 => float64
  | float32 =>
      let bound := of_int (34 * 10 ^ 37) in
      if negb (is_finite scalar)
         || (SpecFloat.SFltb (SpecFloat.SFopp bound) scalar
             && SpecFloat.SFltb scalar bound)
      then float32 else float64
  end.

(** [compute_volume] for a Python [float] scale, as its signature declares:
    the integer samples become [float64], the products are rounded in
    [float64], and [astype(np.float32)] rounds them again. *)
Definition compute_volume (series : list Z) (volume_scale : float)
  : list float :=
  (λ s, astype float32 (mul float64 (of_int s) volume_scale)) <$> series.

(** [np.diff(a)] for an array of dtype [dt]. *)
Fixpoint np_diff (dt : dtype) (a : list float) : list float :=
  match a with
  | x :: (y :: _) as tl => sub dt y x :: np_diff dt tl
  | _ => []
  end.

(** One entry of [np.diff(volume) / time_scale], as stored in the
    [float64] result of [np.concatenate]. *)
Definition quotient (dt : dtype) (d time_scale : float) : float :=
  let rt := result_type dt time_scale in
  astype float64 (div rt (astype rt d) (astype rt time_scale)).

(** [compute_flow] on a volume array of dtype [dt]:
    [np.concatenate(([0.0], np.diff(volume) / time_scale))]. *)
Definition compute_flow (dt : dtype) (volume : list float)
    (time_scale : float) : list float :=
  SpecFloat.S754_zero false
  :: ((λ d, quotient dt d time_scale) <$> np_diff dt volume).

End IEEE.

(** The module's [TIME_SCALE] and [VOLUME_SCALE] as the floats Python reads,
    and the volume curve of the series [[0, 1]] at that scale. *)
Definition ieee_TIME_SCALE : IEEE.float := IEEE.literal 1 100.
Definition ieee_VOLUME_SCALE : IEEE.float := IEEE.literal 1 1000.

Definition ieee_volume_example : list IEEE.float :=
  IEEE.compute_volume [0; 1] ieee_VOLUME_SCALE.

(** ** [derive_input_representations] *)

(** The columns [derive_input_representations] adds, for one row. *)
Record input_representations : Type := InputRepresentations {
  time : list Q;
  volume_pad_zero : list Q;
  volume_pad_last : list Q;
  flow_pad_zero : list Q;
  flow_volume_pad_zero : list Q;
  blow_fef25 : Q;
  blow_fef50 : Q;
  blow_fef75 : Q;
  blow_fef25_75 : Q;
}.

(** The per-row part of [derive_input_representations], in the order of the
    source: the shared time axis first, then one column after the other. *)
Definition derive_input_representations_row (row : base_curves)
    (max_num_points : Z) (max_interp_volume time_scale : Q)
  : result input_representations :=
  time_curve ← compute_time max_num_points time_scale;
  volume_pad_zero ← right_pad_array row.(volume) 0%Z max_num_points;
  volume_pad_last ←
    right_pad_array row.(volume) row.(volume_last) max_num_points;
  flow_pad_zero ← right_pad_array row.(flow) 0%Z max_num_points;
  flow_volume_pad_zero ←
    compute_flow_volume flow_pad_zero volume_pad_zero 0%Q max_interp_volume
      max_num_points;
  fef ← blow_fef row;
  Ok {| time := time_curve;
        volume_pad_zero := volume_pad_zero;
        volume_pad_last := volume_pad_last;
        flow_pad_zero := flow_pad_zero;
        flow_volume_pad_zero := flow_volume_pad_zero;
        blow_fef25 := fef.1.1.1;
        blow_fef50 := fef.1.1.2;
        blow_fef75 := fef.1.2;
        blow_fef25_75 := fef.2 |}.

(** [derive_input_representations(derive_base_curves(df))] as [main] composes
    them, for the trimmed series of one row. *)
Definition derive_blow (series : list Z) (volume_scale time_scale : Q)
    (max_num_points : Z) (max_interp_volume : Q)
  : result input_representations :=
  row ← derive_base_curves_row series volume_scale time_scale;
  derive_input_representations_row row max_num_points max_interp_volume
    time_scale.

(** ** [build_npy_files] *)

(** [np.array(rows)] for a list of one-dimensional arrays: an empty list
    gives a one-dimensional empty array, rows of one length give a matrix,
    and rows of different lengths are a [ValueError]. *)
Inductive stacked : Type :=
  | Stacked1D
  | Stacked2D (rows : list (list Q)).

Definition np_array (rows : list (list Q)) : result stacked :=
  match rows with
  | [] => Ok Stacked1D
  | r :: rest =>
      if forallb (λ r', length r' =? length r)%nat rest then Ok (Stacked2D rows)
      else Raise ValueError
  end.

(** [np.expand_dims(a, axis=2)].  On a one-dimensional array the axis is out
    of bounds; NumPy's [AxisError] is a [ValueError]. *)
Definition np_expand_dims (a : stacked) : result (list (list (list Q))) :=
  match a with
  | Stacked1D => Raise ValueError
  | Stacked2D rows => Ok ((λ r : list Q, (λ x, [x]) <$> r) <$> rows)
  end.

(** [np.concatenate((a, b), axis=2)]: the channels of [b] after those of [a];
    the other two dimensions must agree. *)
Definition np_concatenate (a b : list (list (list Q)))
  : result (list (list (list Q))) :=
  if (length a =? length b)%nat
     && forallb (λ p : list (list Q) * list (list Q),
                   (length p.1 =? length p.2)%nat) (zip a b)
  then Ok (zip_with (zip_with app) a b)
  else Raise ValueError.

(** [np.repeat(a, n, axis=0)]: every row [n] times, in place. *)
Definition np_repeat {A} (a : list A) (n : Z) : list A :=
  a ≫= replicate (Z.to_nat n).

(** [a.shape == (d0, d1, d2)] for an array with at least one row and one
    column, as the arrays of [build_npy_files] are. *)
Definition has_shape (a : list (list (list Q))) (d0 : Z) (d1 d2 : nat) : bool :=
  (Py.len a =? d0)
  && forallb (λ r : list (list Q),
                (length r =? d1)%nat
                && forallb (λ c : list Q, (length c =? d2)%nat) r) a.

(** [a.shape == (d0, d1)] for the matrix of derived features. *)
Definition has_shape2 (a : list (list Q)) (d0 : Z) (d1 : nat) : bool :=
  (Py.len a =? d0) && forallb (λ r : list Q, (length r =? d1)%nat) a.

Definition get_time_flow_volume_np (df : list input_representations)
  : result (stacked * stacked) :=
  flow_np ← np_array (flow_pad_zero <$> df);
  volume_np ← np_array (volume_pad_last <$> df);
  Ok (flow_np, volume_np).

Definition join_flow_volume_in_channel (flow_np volume_np : stacked)
  : result (list (list (list Q))) :=
  flow_np_exp ← np_expand_dims flow_np;
  volume_np_exp ← np_expand_dims volume_np;
  np_concatenate flow_np_exp volume_np_exp.

Definition get_flow_by_volume_np (df : list input_representations)
  : result (list (list (list Q))) :=
  a ← np_array (flow_volume_pad_zero <$> df);
  np_expand_dims a.

(** The returned dict of [build_npy_files], one field per file name
    [ukb_3066_demo.<field>.npy]. *)
Record npy_files : Type := NpyFiles {
  flow_volume_in_channels : list (list (list Q));
  flow_by_volume_one_channel : list (list (list Q));
  volume_by_time_one_channel : list (list (list Q));
  three_curves_in_channels : list (list (list Q));
  derived_features : list (list Q);
}.

Definition build_npy_files (df : list input_representations) (duplicates : Z)
  : result npy_files :=
  _ ← py_assert (1 <=? duplicates);
  '(flow_np, volume_np) ← get_time_flow_volume_np df;
  flow_and_volume_np ← join_flow_volume_in_channel flow_np volume_np;
  flow_by_volume_np ← get_flow_by_volume_np df;
  volume_by_time_np ← np_expand_dims volume_np;
  three_curves_np ← np_concatenate flow_and_volume_np flow_by_volume_np;
  let rep (a : list (list (list Q))) :=
    if 1 <? duplicates then np_repeat a duplicates else a in
  let flow_and_volume_np := rep flow_and_volume_np in
  let flow_by_volume_np := rep flow_by_volume_np in
  let volume_by_time_np := rep volume_by_time_np in
  let three_curves_np := rep three_curves_np in
  let n := Py.len df * duplicates in
  let derived_features := replicate (Z.to_nat n) (replicate 5 0%Q) in
  _ ← py_assert (has_shape flow_and_volume_np n 1000 2);
  _ ← py_assert (has_shape flow_by_volume_np n 1000 1);
  _ ← py_assert (has_shape volume_by_time_np n 1000 1);
  _ ← py_assert (has_shape three_curves_np n 1000 3);
  _ ← py_assert (has_shape2 derived_features n 5);
  Ok {| flow_volume_in_channels := flow_and_volume_np;
        flow_by_volume_one_channel := flow_by_volume_np;
        volume_by_time_one_channel := volume_by_time_np;
        three_curves_in_channels := three_curves_np;
        derived_features := derived_features |}.

(** ** Further vocabulary *)

(** Successive samples never decrease / always increase. *)
Definition nondecreasing (a : list Q) : Prop :=
  ∀ (i : nat) x y, a !! i = Some x → a !! S i = Some y → (x <= y)%Q.

Definition increasing (a : list Q) : Prop :=
  ∀ (i : nat) x y, a !! i = Some x → a !! S i = Some y → (x < y)%Q.

(** The rows that [build_npy_files] stores for one record: the curves side
    by side, one channel each. *)
Definition flow_volume_channels (r : input_representations)
  : list (list Q) :=
  zip_with (λ a b, [a; b]) r.(flow_pad_zero) r.(volume_pad_last).

Definition flow_by_volume_channel (r : input_representations)
  : list (list Q) :=
  (λ c, [c]) <$> r.(flow_volume_pad_zero).

Definition volume_by_time_channel (r : input_representations)
  : list (list Q) :=
  (λ b, [b]) <$> r.(volume_pad_last).

Definition three_curves_channels (r : input_representations)
  : list (list Q) :=
  zip_with (λ ab c, ab ++ [c]) (flow_volume_channels r)
    r.(flow_volume_pad_zero).

(** The three exported curves of a record have the fixed length that the
    shape assertions of [build_npy_files] name. *)
Definition fits_export (r : input_representations) : Prop :=
  length r.(flow_pad_zero) = 1000%nat ∧
  length r.(volume_pad_last) = 1000%nat ∧
  length r.(flow_volume_pad_zero) = 1000%nat.

(** The samples of a record's series are non-negative, as recorded volumes
    are. *)
Definition nonnegative_series (record : dict) : Prop :=
  ∀ series, record !! SPIRO_RECORD_SERIES_KEY = Some (PySeq series) →
    ∀ s, s ∈ series → 0 ≤ s.


(** * Properties *)
(** ** [trim_records] *)

Lemma singleton_zero_set (l : list Z) :
  ({[ 0 ]} : gset Z) = list_to_set l ↔ l ≠ [] ∧ ∀ x, x ∈ l → x = 0.
Proof.
  split.
  - intros H. split.
    + intros ->. apply (not_elem_of_empty (C := gset Z) 0).
      change (∅ : gset Z) with (list_to_set (C := gset Z) (@nil Z)).
      rewrite <- H. by apply elem_of_singleton.
    + intros x Hx. apply (elem_of_singleton (C := gset Z)).
      rewrite H. by apply elem_of_list_to_set.
  - intros [Hne H0]. apply set_eq. intros x. rewrite elem_of_list_to_set, elem_of_singleton.
    split.
    + intros ->. destruct l as [|y l]; [done|].
      rewrite <- (H0 y) by apply list_elem_of_here. apply list_elem_of_here.
    + apply H0.
Qed.

Lemma trimmed_series_of_unfold record series num_points :
  record !! SPIRO_RECORD_SERIES_KEY = Some (PySeq series) →
  record !! SPIRO_RECORD_BLOW_NUM_POINTS_KEY = Some (PyInt num_points) →
  trimmed_series_of record =
    (_ ← py_assert (bool_decide
         (({[ 0 ]} : gset Z) =
          list_to_set (Py.slice_to series (Py.len series - num_points))));
     first ← Py.index (Py.slice_from series (- (num_points + 1))) 0;
     _ ← py_assert (0 =? first);
     Ok (Py.slice_from series (- (num_points + 1)))).
Proof.
  intros Hs Hn. unfold trimmed_series_of, getitem. rewrite Hs, Hn. reflexivity.
Qed.

Lemma trimmed_series_of_padded record series num_points :
  record !! SPIRO_RECORD_SERIES_KEY = Some (PySeq series) →
  record !! SPIRO_RECORD_BLOW_NUM_POINTS_KEY = Some (PyInt num_points) →
  0 ≤ num_points → num_points < Py.len series →
  (∀ (i : nat) x, Z.of_nat i < Py.len series - num_points →
                   series !! i = Some x → x = 0) →
  ∃ trimmed,
    trimmed_series_of record = Ok trimmed ∧
    trimmed = Py.slice_from series (- (num_points + 1)) ∧
    Py.len trimmed = num_points + 1 ∧
    trimmed !! 0%nat = Some 0.
Proof.
  intros Hs Hn Hn0 Hlt Hz.
  rewrite (trimmed_series_of_unfold _ _ _ Hs Hn).
  unfold Py.len in *.
  set (k := (length series - Z.to_nat (num_points + 1))%nat).
  assert (Hfrom : Py.slice_from series (- (num_points + 1)) = drop k series).
  { unfold Py.slice_from, Py.clamp, Py.len.
    destruct (Z.ltb_spec (- (num_points + 1)) 0); [|lia]. f_equal. lia. }
  assert (Hto : Py.slice_to series (Z.of_nat (length series) - num_points) = take (S k) series).
  { unfold Py.slice_to, Py.clamp, Py.len.
    destruct (Z.ltb_spec (Z.of_nat (length series) - num_points) 0); [lia|]. f_equal. lia. }
  rewrite Hfrom, Hto.
  destruct (series !! k) as [x|] eqn:Hk.
  2:{ apply lookup_ge_None in Hk. lia. }
  assert (x = 0) as -> by (apply (Hz k); [lia|done]).
  rewrite bool_decide_true.
  2:{ apply singleton_zero_set. split.
      - destruct series; simpl; [simpl in Hlt; lia|done].
      - intros y Hy. apply list_elem_of_lookup in Hy as [i Hi].
        apply lookup_take_Some in Hi as [Hi Hlti]. apply (Hz i); [lia|done]. }
  simpl. unfold Py.index. rewrite lookup_drop, Nat.add_0_r, Hk. simpl.
  eexists. split; [reflexivity|]. split; [reflexivity|].
  rewrite length_drop, lookup_drop, Nat.add_0_r. split; [lia|done].
Qed.

Lemma trimmed_series_of_no_padding record series :
  record !! SPIRO_RECORD_SERIES_KEY = Some (PySeq series) →
  record !! SPIRO_RECORD_BLOW_NUM_POINTS_KEY = Some (PyInt (Py.len series)) →
  trimmed_series_of record = Raise AssertionError.
Proof.
  intros Hs Hn. rewrite (trimmed_series_of_unfold _ _ _ Hs Hn).
  rewrite Z.sub_diag. unfold Py.slice_to, Py.clamp.
  change (0 <? 0) with false. rewrite Z.min_l by (unfold Py.len; lia).
  reflexivity.
Qed.

Lemma trimmed_series_of_Ok record trimmed :
  trimmed_series_of record = Ok trimmed →
  ∃ series num_points,
    record !! SPIRO_RECORD_SERIES_KEY = Some (PySeq series) ∧
    record !! SPIRO_RECORD_BLOW_NUM_POINTS_KEY = Some (PyInt num_points) ∧
    trimmed = Py.slice_from series (- (num_points + 1)) ∧
    trimmed !! 0%nat = Some 0.
Proof.
  unfold trimmed_series_of, getitem, Py.index. intros H.
  destruct (record !! SPIRO_RECORD_SERIES_KEY) as [[?|series]|]; try discriminate.
  all: destruct (record !! SPIRO_RECORD_BLOW_NUM_POINTS_KEY)
    as [[num_points|?]|]; try discriminate.
  cbn [mbind result_bind as_seq as_int] in H.
  destruct (bool_decide _); cbn [mbind result_bind py_assert] in H;
    [|discriminate].
  destruct (Py.slice_from series (- (num_points + 1)) !! 0%nat) as [x|] eqn:Hx;
    cbn [mbind result_bind] in H; [|discriminate].
  destruct (Z.eqb_spec 0 x); cbn [mbind result_bind py_assert] in H;
    [|discriminate].
  injection H as <-. subst x. eauto 10.
Qed.

Lemma slice_from_neg_idem {A} (l : list A) k :
  k < 0 → Py.slice_from (Py.slice_from l k) k = Py.slice_from l k.
Proof.
  intros Hk. unfold Py.slice_from at 1. unfold Py.clamp at 1.
  destruct (Z.ltb_spec k 0); [|lia].
  replace (Z.to_nat _) with 0%nat; [apply drop_0|].
  unfold Py.len, Py.slice_from, Py.clamp. rewrite length_drop.
  destruct (Z.ltb_spec k 0); [|lia]. unfold Py.len. lia.
Qed.

Lemma trimmed_series_of_idem record trimmed num_points :
  trimmed_series_of record = Ok trimmed →
  record !! SPIRO_RECORD_BLOW_NUM_POINTS_KEY = Some (PyInt num_points) →
  0 ≤ num_points →
  trimmed_series_of (<[SPIRO_RECORD_SERIES_KEY := PySeq trimmed]> record)
  = Ok trimmed.
Proof.
  intros Hok Hn Hn0.
  destruct (trimmed_series_of_Ok _ _ Hok) as (series & n & Hs & Hn' & Ht & H0).
  rewrite Hn in Hn'. injection Hn' as <-.
  destruct (Z.lt_ge_cases num_points (Py.len trimmed)) as [Hlt|Hge].
  - edestruct (trimmed_series_of_padded
                 (<[SPIRO_RECORD_SERIES_KEY := PySeq trimmed]> record)
                 trimmed num_points) as (t' & Hok' & Ht' & _); try done.
    + apply lookup_insert_eq.
    + rewrite lookup_insert_ne; done.
    + intros i x Hi Hx. 
      assert (Py.len trimmed ≤ num_points + 1).
      { subst trimmed. unfold Py.len, Py.slice_from, Py.clamp.
        rewrite length_drop. destruct (Z.ltb_spec (- (num_points + 1)) 0); [|lia].
        unfold Py.len. lia. }
      assert (i = 0%nat) as -> by lia. congruence.
    + rewrite Hok'. f_equal. rewrite Ht', Ht. apply slice_from_neg_idem. lia.
  - assert (trimmed = series) as ->.
    { rewrite Ht. unfold Py.slice_from, Py.clamp.
      destruct (Z.ltb_spec (- (num_points + 1)) 0); [|lia].
      replace (Z.to_nat _) with 0%nat; [apply drop_0|].
      subst trimmed. unfold Py.len, Py.slice_from, Py.clamp in *. 
      rewrite length_drop in Hge.
      destruct (Z.ltb_spec (- (num_points + 1)) 0); [|lia]. unfold Py.len in *. lia. }
    rewrite insert_id; done.
Qed.

Lemma deref_setitem_eq h r k v :
  deref (setitem h r k v) r = <[k := v]> (deref h r).
Proof. unfold deref at 1, setitem. by rewrite lookup_insert_eq. Qed.

Lemma lookup_setitem_ne h r r' k v :
  r ≠ r' → setitem h r k v !! r' = h !! r'.
Proof. intros. unfold setitem. by rewrite lookup_insert_ne. Qed.

Lemma deref_setitem_ne h r r' k v :
  r ≠ r' → deref (setitem h r k v) r' = deref h r'.
Proof. intros. unfold deref. by rewrite lookup_setitem_ne. Qed.

Lemma deref_setitem_other_key h r r' k k' v :
  k ≠ k' → deref (setitem h r k v) r' !! k' = deref h r' !! k'.
Proof.
  intros Hk. destruct (decide (r = r')) as [->|Hr].
  - rewrite deref_setitem_eq. by rewrite lookup_insert_ne.
  - by rewrite deref_setitem_ne.
Qed.

(** What the loop leaves alone, whether or not it completes. *)
Lemma trim_loop_frame records : ∀ h h' res,
  trim_loop h records = (h', res) →
  (∀ r, r ∉ records → h' !! r = h !! r) ∧
  (∀ r k, k ≠ SPIRO_RECORD_SERIES_KEY → deref h' r !! k = deref h r !! k).
Proof.
  induction records as [|r0 rest IH]; intros h h' res Hrun; simpl in Hrun.
  - by injection Hrun as <- <-.
  - destruct (trimmed_series_of (deref h r0)) as [t0|e].
    + destruct (IH _ _ _ Hrun) as [Hout Hkeys]. split.
      * intros r Hr. apply not_elem_of_cons in Hr as [Hne Hr].
        rewrite (Hout r Hr). by apply lookup_setitem_ne.
      * intros r k Hk. rewrite (Hkeys r k Hk).
        by apply deref_setitem_other_key.
    + by injection Hrun as <- <-.
Qed.

(** A completed loop leaves the trimmed series in every listed record. *)
Lemma trim_loop_series records : ∀ h h',
  trim_loop h records = (h', Ok tt) →
  ∀ r series num_points,
    r ∈ records →
    deref h r !! SPIRO_RECORD_SERIES_KEY = Some (PySeq series) →
    deref h r !! SPIRO_RECORD_BLOW_NUM_POINTS_KEY = Some (PyInt num_points) →
    0 ≤ num_points →
    deref h' r !! SPIRO_RECORD_SERIES_KEY
    = Some (PySeq (Py.slice_from series (- (num_points + 1)))).
Proof.
  induction records as [|r0 rest IH]; intros h h' Hrun r series n Hin Hs Hn Hn0.
  - by apply elem_of_nil in Hin.
  - simpl in Hrun.
    destruct (trimmed_series_of (deref h r0)) as [t0|e] eqn:Ht0;
      [|by injection Hrun].
    destruct (trimmed_series_of_Ok _ _ Ht0) as (s0 & n0 & Hs0 & Hn0' & Heq & _).
    destruct (decide (r ∈ rest)) as [Hrest|Hnot].
    + destruct (decide (r0 = r)) as [->|Hne].
      * rewrite Hs in Hs0. rewrite Hn in Hn0'.
        injection Hs0 as <-. injection Hn0' as <-.
        rewrite <- (slice_from_neg_idem series (- (n + 1))) by lia.
        rewrite <- Heq. apply (IH _ _ Hrun); try done.
        -- rewrite deref_setitem_eq. apply lookup_insert_eq.
        -- by rewrite deref_setitem_other_key.
      * apply (IH _ _ Hrun); try done.
        -- by rewrite deref_setitem_ne.
        -- by rewrite deref_setitem_ne.
    + apply elem_of_cons in Hin as [->|?]; [|done].
      rewrite Hs in Hs0. rewrite Hn in Hn0'.
      injection Hs0 as <-. injection Hn0' as <-.
      destruct (trim_loop_frame _ _ _ _ Hrun) as [Hout _].
      unfold deref. rewrite (Hout _ Hnot). fold (deref (setitem h r0 SPIRO_RECORD_SERIES_KEY (PySeq t0)) r0).
      rewrite deref_setitem_eq, lookup_insert_eq. by rewrite Heq.
Qed.

Lemma padded_blow_inv record :
  padded_blow record →
  ∃ series num_points,
    record !! SPIRO_RECORD_SERIES_KEY = Some (PySeq series) ∧
    record !! SPIRO_RECORD_BLOW_NUM_POINTS_KEY = Some (PyInt num_points) ∧
    1 ≤ num_points ∧ num_points < Py.len series ∧
    ∀ (i : nat) x, Z.of_nat i < Py.len series - num_points →
                   series !! i = Some x → x = 0.
Proof.
  intros [(s & n & Hs & Hn & H1 & _ & Hz) (s' & n' & Hs' & Hn' & Hlt)].
  rewrite Hs in Hs'. rewrite Hn in Hn'. injection Hs' as <-. injection Hn' as <-.
  eauto 10.
Qed.

Lemma padded_blow_trimmed record trimmed :
  padded_blow record →
  trimmed_series_of record = Ok trimmed →
  padded_blow (<[SPIRO_RECORD_SERIES_KEY := PySeq trimmed]> record).
Proof.
  intros Hp Hok.
  destruct (padded_blow_inv _ Hp) as (s & n & Hs & Hn & H1 & Hlt & Hz).
  destruct (trimmed_series_of_padded _ _ _ Hs Hn) as (t & Hok' & _ & Hlen & Hhd);
    [lia|done|done|].
  rewrite Hok in Hok'. injection Hok' as <-.
  split; exists trimmed, n.
  - rewrite lookup_insert_eq, lookup_insert_ne by done.
    repeat split; try done; [lia|].
    intros i x Hi Hx. assert (i = 0%nat) as -> by lia. congruence.
  - rewrite lookup_insert_eq, lookup_insert_ne by done.
    repeat split; try done; lia.
Qed.

Lemma trim_loop_padded records : ∀ h,
  (∀ r, r ∈ records → padded_blow (deref h r)) →
  ∃ h', trim_loop h records = (h', Ok tt).
Proof.
  induction records as [|r0 rest IH]; intros h Hall; simpl.
  - eauto.
  - assert (Hp : padded_blow (deref h r0)) by (apply Hall; set_solver).
    destruct (padded_blow_inv _ Hp) as (s & n & Hs & Hn & H1 & Hlt & Hz).
    destruct (trimmed_series_of_padded _ _ _ Hs Hn) as (t & Hok & _);
      [lia|done|done|].
    rewrite Hok. apply IH. intros r Hr.
    destruct (decide (r0 = r)) as [->|Hne].
    + rewrite deref_setitem_eq. by apply padded_blow_trimmed.
    + rewrite deref_setitem_ne by done. apply Hall. set_solver.
Qed.

(** C1 (amended): when every listed record satisfies the blow invariant and
    its series is strictly longer than [num_points] (the zero prefix is not
    empty), [trim_records] succeeds, and row [i] of the dataframe holds a
    series of length [num_points + 1] whose first element is [0]. *)
Theorem trim_records_padded (h : heap) (records : list loc) :
  (∀ r, r ∈ records → blow_invariant (deref h r) ∧ has_padding (deref h r)) →
  ∃ h' df,
    trim_records h records = (h', Ok df) ∧
    length df = length records ∧
    ∀ (i : nat) r, records !! i = Some r →
      ∃ row trimmed num_points,
        df !! i = Some row ∧
        deref h r !! SPIRO_RECORD_BLOW_NUM_POINTS_KEY = Some (PyInt num_points) ∧
        row !! SPIRO_RECORD_SERIES_KEY = Some (PySeq trimmed) ∧
        Py.len trimmed = num_points + 1 ∧
        trimmed !! 0%nat = Some 0.
Proof.
  intros Hall.
  destruct (trim_loop_padded records h Hall) as [h' Hrun].
  exists h', (deref h' <$> records). unfold trim_records. rewrite Hrun.
  split; [done|]. split; [apply length_fmap|].
  intros i r Hi.
  assert (Hin : r ∈ records) by (apply list_elem_of_lookup; eauto).
  destruct (padded_blow_inv _ (Hall r Hin)) as (s & n & Hs & Hn & H1 & Hlt & Hz).
  destruct (trimmed_series_of_padded _ _ _ Hs Hn) as (t & _ & Ht & Hlen & Hhd);
    [lia|done|done|].
  exists (deref h' r), t, n. rewrite list_lookup_fmap, Hi. 
  repeat split; try done.
  rewrite Ht. apply (trim_loop_series _ _ _ Hrun); try done. lia.
Qed.

Lemma trim_records_padded_witness :
  ∃ h' df,
    trim_records example_heap [0%nat] = (h', Ok df) ∧
    length df = 1%nat ∧
    ∀ (i : nat) r, [0%nat] !! i = Some r →
      ∃ row trimmed num_points,
        df !! i = Some row ∧
        deref example_heap r !! SPIRO_RECORD_BLOW_NUM_POINTS_KEY
          = Some (PyInt num_points) ∧
        row !! SPIRO_RECORD_SERIES_KEY = Some (PySeq trimmed) ∧
        Py.len trimmed = num_points + 1 ∧
        trimmed !! 0%nat = Some 0.
Proof.
  apply (trim_records_padded example_heap [0%nat]).
  intros r Hr. apply list_elem_of_singleton in Hr as ->.
  split.
  - exists [0; 0; 0; 1; 2; 3; 4], 4.
    split; [reflexivity|]. split; [reflexivity|].
    split; [lia|]. split; [vm_compute; discriminate|].
    intros i x Hi Hx. change (Py.len _) with 7 in Hi.
    destruct i as [|[|[|i]]]; simpl in Hx; try congruence. lia.
  - exists [0; 0; 0; 1; 2; 3; 4], 4.
    split; [reflexivity|]. split; [reflexivity|]. reflexivity.
Defined.

(** C1 (as stated) fails when the zero prefix is empty: the record satisfies
    the blow invariant, and [trim_records] raises [AssertionError]. *)
Lemma trim_records_unpadded_fails :
  blow_invariant (deref unpadded_heap 0%nat) ∧
  snd (trim_records unpadded_heap [0%nat]) = Raise AssertionError.
Proof.
  split; [|reflexivity].
  exists [0; 7], 2.
  split; [reflexivity|]. split; [reflexivity|].
  split; [lia|]. split; [vm_compute; discriminate|].
  intros i x Hi. change (Py.len _) with 2 in Hi. lia.
Qed.

(** The extent of the write at the end of the loop body.  After a successful
    call the rows of the dataframe are the listed records as the heap then
    holds them; objects outside the list and every entry other than
    ['series'] are unchanged; and the ['series'] entry of a listed record with
    a non-negative point count has been overwritten by
    [series[-(num_points + 1):]]. *)
Lemma trim_records_writes (h h' : heap) (records : list loc)
    (df : DataFrame) :
  trim_records h records = (h', Ok df) →
  df = deref h' <$> records ∧
  (∀ r, r ∉ records → h' !! r = h !! r) ∧
  (∀ r k, k ≠ SPIRO_RECORD_SERIES_KEY → deref h' r !! k = deref h r !! k) ∧
  (∀ r series num_points,
     r ∈ records →
     deref h r !! SPIRO_RECORD_SERIES_KEY = Some (PySeq series) →
     deref h r !! SPIRO_RECORD_BLOW_NUM_POINTS_KEY = Some (PyInt num_points) →
     0 ≤ num_points →
     deref h' r !! SPIRO_RECORD_SERIES_KEY
     = Some (PySeq (Py.slice_from series (- (num_points + 1))))).
Proof.
  unfold trim_records. intros Hrun.
  destruct (trim_loop h records) as [h1 [[]|e]] eqn:Hloop; [|discriminate].
  injection Hrun as -> <-.
  destruct (trim_loop_frame _ _ _ _ Hloop) as [Hout Hkeys].
  repeat split; try done.
  intros r series n. by apply (trim_loop_series _ _ _ Hloop).
Qed.

(** C2: the code breaks the claim.  On the well-formed record with
    [num_points = 4] and series [[0, 0, 0, 1, 2, 3, 4]] the call succeeds,
    and afterwards the input record itself holds the trimmed series
    [[0, 1, 2, 3, 4]]: the caller's record has been changed. *)
Lemma trim_records_mutates_input :
  snd (trim_records example_heap [0%nat]) = Ok [deref (trim_records example_heap [0%nat]).1 0%nat] ∧
  deref example_heap 0%nat !! SPIRO_RECORD_SERIES_KEY
    = Some (PySeq [0; 0; 0; 1; 2; 3; 4]) ∧
  deref (trim_records example_heap [0%nat]).1 0%nat !! SPIRO_RECORD_SERIES_KEY
    = Some (PySeq [0; 1; 2; 3; 4]).
Proof. repeat split; vm_compute; reflexivity. Qed.

(** ** [right_pad_array] *)

Lemma slice_to_nonneg {A} (l : list A) k :
  0 ≤ k → Py.slice_to l k = take (Z.to_nat k) l.
Proof.
  intros Hk. unfold Py.slice_to, Py.clamp, Py.len.
  destruct (Z.ltb_spec k 0); [lia|].
  destruct (Z.le_ge_cases k (Z.of_nat (length l))).
  - by rewrite Z.min_l.
  - rewrite Z.min_r, Nat2Z.id by done.
    rewrite !take_ge; [done | lia | lia].
Qed.

(** C3 (amended): for [N >= 0], [right_pad_array curve fill N] returns an
    array of length exactly [N]; when [len(curve) >= N] it is the first [N]
    elements of [curve] (whose last element, for [N >= 1], is [curve[N-1]]);
    when [len(curve) < N] it is [curve] followed by [N - len(curve)] copies
    of [fill] converted to the element type of [curve], and its last element
    is that converted value.  For a fill that has the element type already
    the converted value is [fill] itself. *)
Theorem right_pad_array_spec {A B} `{!AsType B A} (curve : list A) (fill : B)
    (N : Z) :
  0 ≤ N →
  (∃ out,
     right_pad_array curve fill N = Ok out ∧
     Py.len out = N ∧
     (N ≤ Py.len curve →
        out = take (Z.to_nat N) curve ∧
        (1 ≤ N → last out = curve !! Z.to_nat (N - 1))) ∧
     (Py.len curve < N →
        out = curve ++ replicate (Z.to_nat (N - Py.len curve)) (astype fill) ∧
        last out = Some (astype fill))) ∧
  ∀ same : A, astype same = same.
Proof.
  intros HN. split; [|done]. unfold right_pad_array, np_pad_right.
  rewrite slice_to_nonneg by (unfold Py.len; lia).
  set (kept := take _ curve).
  assert (Hkept : Py.len kept = Z.min (Py.len curve) N).
  { unfold kept, Py.len. rewrite length_take. lia. }
  destruct (Z.ltb_spec (N - Py.len kept) 0) as [Hneg|_]; [lia|].
  eexists. split; [reflexivity|]. split; [|split].
  - unfold Py.len in *. rewrite length_app, length_replicate. lia.
  - intros Hle.
    assert (Hk : kept = take (Z.to_nat N) curve).
    { unfold kept. by rewrite Z.min_r. }
    replace (Z.to_nat (N - Py.len kept)) with 0%nat by lia.
    simpl. rewrite app_nil_r. split; [done|].
    intros H1. rewrite Hk, last_lookup, length_take.
    unfold Py.len in Hle.
    rewrite lookup_take_lt by lia. f_equal. lia.
  - intros Hlt.
    assert (Hk : kept = curve).
    { unfold kept. rewrite Z.min_l by lia. unfold Py.len.
      rewrite Nat2Z.id. by apply take_ge. }
    rewrite Hk. split; [done|].
    destruct (Z.to_nat (N - Py.len curve)) as [|n] eqn:Hn; [lia|].
    rewrite replicate_S_end, app_assoc. apply last_snoc.
Qed.

Lemma right_pad_array_spec_witness :
  right_pad_array [1; 2; 3] 0 5 = Ok [1; 2; 3; 0; 0] ∧
  right_pad_array [1; 2; 3]%Q 0%Z 5 = Ok [1; 2; 3; 0; 0]%Q.
Proof.
  split.
  - destruct (right_pad_array_spec [1; 2; 3] 0 5 ltac:(lia))
      as [(out & -> & _ & _ & Hpad) _].
    f_equal. apply Hpad. vm_compute. reflexivity.
  - destruct (right_pad_array_spec [1; 2; 3]%Q 0%Z 5 ltac:(lia))
      as [(out & -> & _ & _ & Hpad) _].
    f_equal. apply Hpad. vm_compute. reflexivity.
Defined.

(** C3 (as stated) fails for a fill that does not have the element type of
    the curve: padding the integer array [[1, 2, 3]] with [2.5] stores [2],
    so the result is not the curve followed by copies of the fill, and its
    last element is not the fill. *)
Lemma right_pad_array_casts_fill :
  right_pad_array [1; 2; 3] (5 # 2)%Q 5 = Ok [1; 2; 3; 2; 2] ∧
  ¬ Forall2 (λ (x : Z) (y : Q), (inject_Z x == y)%Q) [1; 2; 3; 2; 2]
      ((inject_Z <$> [1; 2; 3]) ++ replicate 2 (5 # 2)%Q) ∧
  ¬ (inject_Z 2 == 5 # 2)%Q.
Proof.
  split; [reflexivity|]. split.
  - intros H. do 3 (apply Forall2_cons_1 in H as [_ H]).
    apply Forall2_cons_1 in H as [H _]. vm_compute in H. discriminate H.
  - intros H. vm_compute in H. discriminate H.
Qed.

(** A Python [float] that is not a [float32] is rounded when it pads a
    [float32] array: [0.1] is stored as [13421773 * 2^-27]. *)
Example right_pad_array_float32 :
  right_pad_array
    [IEEE.Elem (dt := IEEE.float32) (SpecFloat.S754_finite false 8388608 (-23))]
    (IEEE.literal 1 10) 2
  = Ok [IEEE.Elem (SpecFloat.S754_finite false 8388608 (-23));
        IEEE.Elem (SpecFloat.S754_finite false 13421773 (-27))] ∧
  IEEE.literal 1 10 ≠ SpecFloat.S754_finite false 13421773 (-27).
Proof. split; [vm_compute; reflexivity | vm_compute; discriminate]. Qed.

(** The padding examples of the specification. *)
Example right_pad_array_examples :
  right_pad_array [1; 2; 3] 0 5 = Ok [1; 2; 3; 0; 0] ∧
  right_pad_array [1; 2; 3] 3 5 = Ok [1; 2; 3; 3; 3] ∧
  right_pad_array [1; 2; 3] 0 2 = Ok [1; 2].
Proof. repeat split. Qed.

(** A negative target length is rejected by [np.pad]. *)
Lemma right_pad_array_negative {A B} `{!AsType B A} (curve : list A)
    (fill : B) (N : Z) :
  N < 0 → right_pad_array curve fill N = Raise ValueError.
Proof.
  intros HN. unfold right_pad_array, np_pad_right.
  set (kept := Py.slice_to _ _).
  destruct (Z.ltb_spec (N - Py.len kept) 0); [done|]. unfold Py.len in *. lia.
Qed.

(** ** [compute_flow] *)

Lemma np_diff_length (a : list Q) : length (np_diff a) = pred (length a).
Proof.
  induction a as [|x [|y tl] IH]; simpl in *; [done|done|]. by rewrite IH.
Qed.

Lemma np_diff_lookup (a : list Q) : ∀ (i : nat) x y,
  a !! i = Some x → a !! S i = Some y → np_diff a !! i = Some (y - x)%Q.
Proof.
  induction a as [|x0 [|y0 tl] IH]; intros i x y Hx Hy; [done|done|].
  destruct i as [|i].
  - simpl in Hx, Hy. by injection Hx as <-; injection Hy as <-.
  - change (np_diff (x0 :: y0 :: tl)) with ((y0 - x0)%Q :: np_diff (y0 :: tl)).
    rewrite lookup_cons. by apply IH.
Qed.

Lemma ieee_np_diff_length (dt : IEEE.dtype) (a : list IEEE.float) :
  length (IEEE.np_diff dt a) = pred (length a).
Proof.
  induction a as [|x [|y tl] IH]; simpl in *; [done|done|]. by rewrite IH.
Qed.

Lemma ieee_np_diff_lookup (dt : IEEE.dtype) (a : list IEEE.float) :
  ∀ (i : nat) x y,
  a !! i = Some x → a !! S i = Some y →
  IEEE.np_diff dt a !! i = Some (IEEE.sub dt y x).
Proof.
  induction a as [|x0 [|y0 tl] IH]; intros i x y Hx Hy; [done|done|].
  destruct i as [|i].
  - simpl in Hx, Hy. by injection Hx as <-; injection Hy as <-.
  - change (IEEE.np_diff dt (x0 :: y0 :: tl))
      with (IEEE.sub dt y0 x0 :: IEEE.np_diff dt (y0 :: tl)).
    rewrite lookup_cons. by apply IH.
Qed.

(** C8 (amended): for a floating-point volume array of length at least one
    and a non-zero time scale, [compute_flow] returns an array of the same
    length, with [flow[0] = 0]; for [i >= 1], [flow[i]] is the quotient as
    NumPy computes it: the difference [volume[i] - volume[i-1]] rounded in
    the dtype of the array, divided by [time_scale] with the rounding of the
    division's dtype, and stored as a [float64]. *)
Theorem compute_flow_rounded (dt : IEEE.dtype) (volume : list IEEE.float)
    (time_scale : IEEE.float) :
  (1 ≤ length volume)%nat →
  SpecFloat.SFeqb time_scale (SpecFloat.S754_zero false) = false →
  length (IEEE.compute_flow dt volume time_scale) = length volume ∧
  IEEE.compute_flow dt volume time_scale !! 0%nat
  = Some (SpecFloat.S754_zero false) ∧
  ∀ (i : nat) v_prev v,
    (1 ≤ i)%nat →
    volume !! (i - 1)%nat = Some v_prev →
    volume !! i = Some v →
    IEEE.compute_flow dt volume time_scale !! i
    = Some (IEEE.quotient dt (IEEE.sub dt v v_prev) time_scale).
Proof.
  intros Hlen _. unfold IEEE.compute_flow. split; [|split].
  - simpl. rewrite length_fmap, ieee_np_diff_length. lia.
  - done.
  - intros [|i] v_prev v Hi Hprev Hv; [lia|].
    replace (S i - 1)%nat with i in Hprev by lia.
    rewrite lookup_cons, list_lookup_fmap.
    by rewrite (ieee_np_diff_lookup _ _ _ _ _ Hprev Hv).
Qed.

Lemma compute_flow_rounded_witness :
  IEEE.compute_flow IEEE.float32 ieee_volume_example ieee_TIME_SCALE !! 1%nat
  = Some (IEEE.quotient IEEE.float32
            (IEEE.sub IEEE.float32
               (IEEE.astype IEEE.float32 (IEEE.literal 1 1000))
               (SpecFloat.S754_zero false))
            ieee_TIME_SCALE).
Proof.
  apply (compute_flow_rounded IEEE.float32 ieee_volume_example
           ieee_TIME_SCALE);
    [simpl; lia | reflexivity | lia | reflexivity | reflexivity].
Defined.

(** C8 (as stated) fails on the first two samples of a blow at the module's
    scales, [volume = float32([0, 1 * 0.001])] and [time_scale = 0.01]:
    [flow[1]] is [13421774 * 2^-27], which is neither the real number
    [(volume[1] - volume[0]) / time_scale] nor that quotient evaluated in
    [float64]. *)
Lemma compute_flow_inexact :
  ∃ v0 v1 f1,
    ieee_volume_example = [v0; v1] ∧
    IEEE.compute_flow IEEE.float32 ieee_volume_example ieee_TIME_SCALE
    = [SpecFloat.S754_zero false; f1] ∧
    f1 = SpecFloat.S754_finite false 7205760048037888 (-56) ∧
    (IEEE.to_Q f1 == 13421774 * 2 ^ (-27))%Q ∧
    ¬ (IEEE.to_Q f1
       == (IEEE.to_Q v1 - IEEE.to_Q v0) / IEEE.to_Q ieee_TIME_SCALE)%Q ∧
    f1 ≠ IEEE.div IEEE.float64 (IEEE.sub IEEE.float64 v1 v0) ieee_TIME_SCALE.
Proof.
  eexists _, _, _. split; [reflexivity|]. split; [vm_compute; reflexivity|].
  split; [reflexivity|]. split; [vm_compute; reflexivity|]. split.
  - intros H. vm_compute in H. discriminate H.
  - intros H. vm_compute in H. discriminate H.
Qed.

(** On an empty volume array the flow still holds its leading zero, so the
    lengths differ. *)
Example compute_flow_empty (time_scale : Q) :
  compute_flow [] time_scale = [0%Q].
Proof. reflexivity. Qed.

(** ** The running maximum *)

Lemma np_maximum_ge_l (a b : Q) : (a <= np_maximum a b)%Q.
Proof.
  unfold np_maximum. destruct (Qle_bool a b) eqn:E.
  - by apply Qle_bool_iff.
  - apply Qle_refl.
Qed.

Lemma np_maximum_r (a b : Q) : (a <= b)%Q → np_maximum a b = b.
Proof.
  intros H. unfold np_maximum. apply Qle_bool_iff in H. by rewrite H.
Qed.

Lemma np_minimum_l (a b : Q) : (a <= b)%Q → np_minimum a b = a.
Proof.
  intros H. unfold np_minimum. apply Qle_bool_iff in H. by rewrite H.
Qed.

Lemma maximum_accumulate_from_length (a : list Q) : ∀ m,
  length (maximum_accumulate_from m a) = length a.
Proof. induction a as [|x tl IH]; intros m; simpl; [done|]. by rewrite IH. Qed.

Lemma np_maximum_accumulate_length (a : list Q) :
  length (np_maximum_accumulate a) = length a.
Proof.
  destruct a; simpl; [done|]. by rewrite maximum_accumulate_from_length.
Qed.

(** Successive entries of the running maximum, started at [m], never
    decrease. *)
Lemma maximum_accumulate_from_step (a : list Q) : ∀ m (i : nat) x y,
  (m :: maximum_accumulate_from m a) !! i = Some x →
  (m :: maximum_accumulate_from m a) !! S i = Some y →
  (x <= y)%Q.
Proof.
  induction a as [|x0 tl IH]; intros m i x y Hx Hy.
  - destruct i; simpl in Hy; done.
  - destruct i as [|i].
    + simpl in Hx, Hy. injection Hx as <-; injection Hy as <-.
      apply np_maximum_ge_l.
    + apply (IH (np_maximum m x0) i); done.
Qed.

Lemma maximum_accumulate_from_diff (a : list Q) : ∀ m,
  forallb (Qle_bool 0) (np_diff (m :: maximum_accumulate_from m a)) = true.
Proof.
  induction a as [|x tl IH]; intros m; [done|].
  change (maximum_accumulate_from m (x :: tl))
    with (np_maximum m x :: maximum_accumulate_from (np_maximum m x) tl).
  change (np_diff (m :: ?b :: ?l)) with ((b - m)%Q :: np_diff (b :: l)).
  cbn [forallb]. rewrite IH, andb_true_r.
  apply Qle_bool_iff. pose proof (np_maximum_ge_l m x). lra.
Qed.

Lemma np_maximum_accumulate_diff (a : list Q) :
  forallb (Qle_bool 0) (np_diff (np_maximum_accumulate a)) = true.
Proof. destruct a; [done|]. apply maximum_accumulate_from_diff. Qed.

(** C10: the running maximum of any volume array is non-decreasing, the
    assertion on its successive differences passes, and
    [compute_flow_volume] never raises [AssertionError]. *)
Theorem monotonic_volume_assertion (volume : list Q) :
  (∀ (i : nat) x y,
     np_maximum_accumulate volume !! i = Some x →
     np_maximum_accumulate volume !! S i = Some y → (x <= y)%Q) ∧
  forallb (Qle_bool 0) (np_diff (np_maximum_accumulate volume)) = true ∧
  ∀ flow min_volume max_volume num_points,
    compute_flow_volume flow volume min_volume max_volume num_points
    ≠ Raise AssertionError.
Proof.
  split; [|split].
  - destruct volume as [|x tl]; [done|]. apply maximum_accumulate_from_step.
  - apply np_maximum_accumulate_diff.
  - intros flow lo hi n. unfold compute_flow_volume.
    rewrite np_maximum_accumulate_diff. cbn [py_assert mbind result_bind].
    unfold np_linspace, np_interp.
    destruct (n <? 0); [done|]. cbn [mbind result_bind].
    destruct (_ =? _)%nat; [done|]. destruct (negb _); done.
Qed.

(** ** [compute_flow_volume] *)

Lemma np_linspace_length (start stop : Q) (num : Z) (endpoint : bool) grid :
  np_linspace start stop num endpoint = Ok grid → Py.len grid = num.
Proof.
  unfold np_linspace, Py.len. destruct (Z.ltb_spec num 0); [done|].
  intros Hg. injection Hg as <-.
  assert (Hlen : ∀ (f g : Q → Q),
    length (g <$> (f <$> (inject_Z <$> seqZ 0 num))) = Z.to_nat num).
  { intros f g. by rewrite !length_fmap, length_seqZ. }
  destruct (endpoint && (1 <? num)); [rewrite length_insert|];
    destruct (0 <? _); try destruct (Qeq_bool _ _); rewrite Hlen; lia.
Qed.

Lemma np_interp_Ok x xp fp left right out :
  np_interp x xp fp left right = Ok out →
  xp ≠ [] ∧ length fp = length xp ∧
  out = interp_point xp fp left right <$> x.
Proof.
  unfold np_interp. destruct xp as [|x0 xp]; [done|]. simpl.
  destruct (Nat.eqb_spec (length fp) (S (length xp))); simpl; [|done].
  intros Hout. by injection Hout as <-.
Qed.

(** The smallest entry of a running maximum is its first one, the largest
    its last one. *)
Lemma foldl_minimum_accumulate (a : list Q) : ∀ m x,
  (x <= m)%Q → foldl np_minimum x (maximum_accumulate_from m a) = x.
Proof.
  induction a as [|y tl IH]; intros m x Hx; [done|]. simpl.
  pose proof (np_maximum_ge_l m y).
  rewrite np_minimum_l by lra. apply IH. lra.
Qed.

Lemma foldl_maximum_accumulate (a : list Q) : ∀ m x,
  (x <= m)%Q →
  foldl np_maximum x (maximum_accumulate_from m a)
  = default x (last (maximum_accumulate_from m a)).
Proof.
  induction a as [|y tl IH]; intros m x Hx; [done|]. simpl.
  pose proof (np_maximum_ge_l m y).
  rewrite np_maximum_r by lra. rewrite IH by apply Qle_refl.
  rewrite last_cons.
  by destruct (last (maximum_accumulate_from (np_maximum m y) tl)).
Qed.

Lemma last_accumulate_ge (a : list Q) : ∀ m,
  (m <= default m (last (maximum_accumulate_from m a)))%Q.
Proof.
  induction a as [|y tl IH]; intros m; [apply Qle_refl|]. simpl.
  pose proof (np_maximum_ge_l m y). pose proof (IH (np_maximum m y)) as Hm.
  rewrite last_cons.
  destruct (last (maximum_accumulate_from (np_maximum m y) tl));
    simpl in *; lra.
Qed.

Lemma nth_pred_length {A} (l : list A) (d : A) :
  nth (pred (length l)) l d = default d (last l).
Proof.
  induction l as [|x [|y tl] IH]; [done|done|].
  change (nth (pred (length (x :: y :: tl))) (x :: y :: tl) d)
    with (nth (pred (length (y :: tl))) (y :: tl) d).
  by rewrite IH.
Qed.

Lemma np_min_max_accumulate (volume : list Q) vmin vmax :
  np_min (np_maximum_accumulate volume) = Ok vmin →
  np_max (np_maximum_accumulate volume) = Ok vmax →
  vmin = nth 0 (np_maximum_accumulate volume) 0%Q ∧
  vmax = nth (pred (length (np_maximum_accumulate volume)))
             (np_maximum_accumulate volume) 0%Q ∧
  (vmin <= vmax)%Q.
Proof.
  destruct volume as [|x tl]; [done|]. simpl np_maximum_accumulate.
  unfold np_min, np_max. intros Hmin Hmax.
  injection Hmin as <-. injection Hmax as <-.
  rewrite foldl_minimum_accumulate by apply Qle_refl.
  rewrite foldl_maximum_accumulate by apply Qle_refl.
  rewrite nth_pred_length, last_cons. split; [done|]. split.
  - by destruct (last (maximum_accumulate_from x tl)).
  - pose proof (last_accumulate_ge tl x).
    by destruct (last (maximum_accumulate_from x tl)).
Qed.

(** A query point outside [[xp[0], xp[-1]]] gets the boundary value. *)
Lemma interp_point_outside (xp fp : list Q) (left right x : Q) :
  let x_first := nth 0 xp 0%Q in
  let x_last := nth (pred (length xp)) xp 0%Q in
  (x_first <= x_last)%Q →
  ((x < x_first)%Q → interp_point xp fp left right x = left) ∧
  ((x_last < x)%Q → interp_point xp fp left right x = right).
Proof.
  intros x_first x_last Hle. unfold interp_point.
  fold x_first. fold x_last.
  assert (Hnle : ∀ a b : Q, (a < b)%Q → Qle_bool b a = false).
  { intros a b Hab. destruct (Qle_bool b a) eqn:E; [|done].
    apply Qle_bool_iff in E. lra. }
  assert (Hleb : ∀ a b : Q, (a <= b)%Q → Qle_bool a b = true).
  { intros a b Hab. by apply Qle_bool_iff. }
  split; intros Hx.
  - destruct (length xp =? 1)%nat.
    + by rewrite (Hnle x x_first).
    + rewrite (Hleb x x_last) by lra. simpl. by rewrite (Hnle x x_first).
  - destruct (length xp =? 1)%nat eqn:E.
    + apply Nat.eqb_eq in E. destruct xp as [|x0 [|? ?]]; try done.
      subst x_first x_last. simpl in *.
      rewrite (Hleb x0 x) by lra. simpl. by rewrite (Hnle x0 x).
    + by rewrite (Hnle x_last x).
Qed.

(** C6: an accepted call of [compute_flow_volume] returns exactly
    [num_points] values, one per query point of the grid from [min_volume] to
    [max_volume], and a query point strictly below the minimum or strictly
    above the maximum of the running-maximum volume curve gets flow [0]. *)
Theorem compute_flow_volume_boundary (flow volume : list Q)
    (min_volume max_volume : Q) (num_points : Z) (out : list Q) :
  compute_flow_volume flow volume min_volume max_volume num_points = Ok out →
  Py.len out = num_points ∧
  ∃ queries vmin vmax,
    np_linspace min_volume max_volume num_points true = Ok queries ∧
    np_min (np_maximum_accumulate volume) = Ok vmin ∧
    np_max (np_maximum_accumulate volume) = Ok vmax ∧
    length queries = length out ∧
    ∀ (i : nat) q, queries !! i = Some q →
      (q < vmin)%Q ∨ (vmax < q)%Q → out !! i = Some 0%Q.
Proof.
  unfold compute_flow_volume.
  rewrite np_maximum_accumulate_diff. cbn [py_assert mbind result_bind].
  destruct (np_linspace min_volume max_volume num_points true)
    as [queries|e] eqn:Hgrid; cbn [mbind result_bind]; [|done].
  intros Hout. apply np_interp_Ok in Hout as (Hne & Hlen & ->).
  pose proof (np_linspace_length _ _ _ _ _ Hgrid) as Hq.
  split; [unfold Py.len in *; by rewrite length_fmap|].
  destruct (np_maximum_accumulate volume) as [|x0 mono] eqn:Hmono; [done|].
  exists queries, (foldl np_minimum x0 mono), (foldl np_maximum x0 mono).
  split; [done|]. split; [done|]. split; [done|].
  split; [by rewrite length_fmap|].
  intros i q Hi Hor. rewrite list_lookup_fmap, Hi. simpl. f_equal.
  destruct (np_min_max_accumulate volume (foldl np_minimum x0 mono)
              (foldl np_maximum x0 mono)) as (Hmin & Hmax & Hle);
    [by rewrite Hmono | by rewrite Hmono |].
  rewrite Hmono in Hmin, Hmax.
  rewrite Hmin, Hmax in Hle.
  destruct (interp_point_outside (x0 :: mono) flow 0 0 q Hle) as [Hl Hr].
  destruct Hor as [Hlo|Hhi].
  - apply Hl. by rewrite <- Hmin.
  - apply Hr. by rewrite <- Hmax.
Qed.

Lemma compute_flow_volume_boundary_witness :
  Py.len [0; 1; 1; 1; 1; 0; 0]%Q = 7 ∧
  ∃ queries vmin vmax,
    np_linspace 0 6 7 true = Ok queries ∧
    np_min (np_maximum_accumulate [0; 1; 2; 3; 4]%Q) = Ok vmin ∧
    np_max (np_maximum_accumulate [0; 1; 2; 3; 4]%Q) = Ok vmax ∧
    length queries = length [0; 1; 1; 1; 1; 0; 0]%Q ∧
    ∀ (i : nat) q, queries !! i = Some q →
      (q < vmin)%Q ∨ (vmax < q)%Q → [0; 1; 1; 1; 1; 0; 0]%Q !! i = Some 0%Q.
Proof.
  apply (compute_flow_volume_boundary
           [0; 1; 1; 1; 1]%Q [0; 1; 2; 3; 4]%Q 0 6 7).
  vm_compute. reflexivity.
Defined.

(** ** [compute_fef] *)

Lemma np_ge_lookup (volume : list Q) (t : Q) (i : nat) :
  np_ge volume t !! i = Qle_bool t <$> volume !! i.
Proof. unfold np_ge. apply list_lookup_fmap. Qed.

Lemma existsb_np_ge (volume : list Q) (t : Q) :
  existsb id (np_ge volume t) = true ↔ reaches volume t.
Proof.
  unfold reaches. induction volume as [|v tl IH]; simpl.
  - split; [done|]. by intros (i & v & Hi & _).
  - rewrite orb_true_iff, IH. split.
    + intros [Hv|(i & w & Hi & Hw)].
      * exists 0%nat, v. split; [done|]. by apply Qle_bool_iff.
      * by exists (S i), w.
    + intros ([|i] & w & Hi & Hw).
      * left. simpl in Hi. injection Hi as ->. by apply Qle_bool_iff.
      * right. by exists i, w.
Qed.

Lemma np_argmax_first_crossing (volume : list Q) (t : Q) :
  reaches volume t →
  ∃ i, np_argmax (np_ge volume t) = Ok i ∧ first_crossing volume t i.
Proof.
  intros (k & w & Hk & Hw).
  destruct (list_find_elem_of Is_true (np_ge volume t) true)
    as [[i b] Hfind].
  { apply list_elem_of_lookup. exists k. rewrite np_ge_lookup, Hk. simpl.
    f_equal. by apply Qle_bool_iff. }
  { done. }
  exists i. split.
  - unfold np_argmax. rewrite Hfind.
    destruct volume; [done|]. reflexivity.
  - apply list_find_Some in Hfind as (Hi & Hb & Hmin).
    rewrite np_ge_lookup in Hi.
    destruct (volume !! i) as [v|] eqn:Hv; [|done].
    injection Hi as <-. split.
    + exists v. split; [done|]. apply Qle_bool_iff. by apply Is_true_true.
    + intros j v' Hj Hv' Hle. apply (Hmin j (Qle_bool t v')); [|done|].
      * by rewrite np_ge_lookup, Hv'.
      * apply Is_true_true. by apply Qle_bool_iff.
Qed.

Lemma first_crossing_le (volume : list Q) (t1 t2 : Q) (i1 i2 : nat) :
  (t1 <= t2)%Q →
  first_crossing volume t1 i1 → first_crossing volume t2 i2 →
  (i1 ≤ i2)%nat.
Proof.
  intros Ht [_ Hmin1] [(v & Hv & Hle) _].
  destruct (le_lt_dec i1 i2) as [|Hlt]; [done|].
  exfalso. apply (Hmin1 i2 v Hlt Hv). lra.
Qed.

Lemma first_crossing_lt_length (volume : list Q) (t : Q) (i : nat) :
  first_crossing volume t i → (i < length volume)%nat.
Proof. intros [(v & Hv & _) _]. by apply lookup_lt_Some in Hv. Qed.

Lemma reaches_le (volume : list Q) (t1 t2 : Q) :
  (t1 <= t2)%Q → reaches volume t2 → reaches volume t1.
Proof. intros Ht (i & v & Hv & Hle). exists i, v. split; [done|lra]. Qed.

(** With a non-negative [volume_max] the three thresholds increase, and so
    do the three first crossings. *)
Lemma fef_indices (volume : list Q) (volume_max : Q) :
  (0 <= volume_max)%Q →
  reaches volume ((3 # 4) * volume_max) →
  ∃ idx_25 idx_50 idx_75,
    np_argmax (np_ge volume ((1 # 4) * volume_max)) = Ok idx_25 ∧
    np_argmax (np_ge volume ((1 # 2) * volume_max)) = Ok idx_50 ∧
    np_argmax (np_ge volume ((3 # 4) * volume_max)) = Ok idx_75 ∧
    first_crossing volume ((1 # 4) * volume_max) idx_25 ∧
    first_crossing volume ((1 # 2) * volume_max) idx_50 ∧
    first_crossing volume ((3 # 4) * volume_max) idx_75 ∧
    (idx_25 ≤ idx_50)%nat ∧ (idx_50 ≤ idx_75)%nat ∧
    (idx_75 < length volume)%nat.
Proof.
  intros Hmax H75.
  assert (Hq1 : ((1 # 4) * volume_max <= (1 # 2) * volume_max)%Q) by lra.
  assert (Hq2 : ((1 # 2) * volume_max <= (3 # 4) * volume_max)%Q) by lra.
  pose proof (reaches_le _ _ _ Hq2 H75) as H50.
  pose proof (reaches_le _ _ _ Hq1 H50) as H25.
  destruct (np_argmax_first_crossing _ _ H25) as (i25 & Ha25 & Hc25).
  destruct (np_argmax_first_crossing _ _ H50) as (i50 & Ha50 & Hc50).
  destruct (np_argmax_first_crossing _ _ H75) as (i75 & Ha75 & Hc75).
  exists i25, i50, i75. split_and!; try done.
  - apply (first_crossing_le volume _ _ _ _ Hq1 Hc25 Hc50).
  - apply (first_crossing_le volume _ _ _ _ Hq2 Hc50 Hc75).
  - by apply first_crossing_lt_length in Hc75.
Qed.

(** [compute_fef] past its two size assertions. *)
Lemma compute_fef_sized (flow volume : list Q) (volume_max : Q) :
  Py.len flow = Py.len volume → 1 < Py.len flow →
  compute_fef flow volume volume_max =
    if negb (existsb id (np_ge volume ((3 # 4) * volume_max))) then
      Raise ValueError
    else
      idx_25 ← np_argmax (np_ge volume ((1 # 4) * volume_max));
      idx_50 ← np_argmax (np_ge volume ((1 # 2) * volume_max));
      idx_75 ← np_argmax (np_ge volume ((3 # 4) * volume_max));
      _ ← py_assert ((idx_25 <=? idx_50)%nat && (idx_50 <=? idx_75)%nat
                     && (Z.of_nat idx_75 <? Py.len flow));
      fef25 ← Py.index flow idx_25;
      fef50 ← Py.index flow idx_50;
      fef75 ← Py.index flow idx_75;
      Ok (fef25, fef50, fef75,
          np_mean (Py.slice flow (Z.of_nat idx_25) (Z.of_nat idx_75 + 1))).
Proof.
  intros Hlen Hsize. unfold compute_fef.
  rewrite <- Hlen, Z.eqb_refl.
  destruct (Z.ltb_spec 1 (Py.len flow)); [|lia]. reflexivity.
Qed.

Lemma take_drop_seq {A} (l : list A) (d : A) : ∀ (n a : nat),
  (a + n ≤ length l)%nat →
  take n (drop a l) = (λ k, nth k l d) <$> seq a n.
Proof.
  induction n as [|n IH]; intros a Ha; [done|].
  destruct (l !! a) as [x|] eqn:Hx.
  2:{ apply lookup_ge_None in Hx. lia. }
  rewrite (drop_S _ _ _ Hx). simpl. rewrite IH by lia.
  f_equal. by rewrite nth_lookup, Hx.
Qed.

Lemma np_mean_slice (flow : list Q) (a b : nat) :
  (a ≤ b)%nat → (b < length flow)%nat →
  np_mean (Py.slice flow (Z.of_nat a) (Z.of_nat b + 1))
  = mean_over_range flow a b.
Proof.
  intros Hab Hb.
  assert (Hs : Py.slice flow (Z.of_nat a) (Z.of_nat b + 1)
               = (λ k, nth k flow 0%Q) <$> seq a (S b - a)).
  { unfold Py.slice, Py.clamp, Py.len.
    destruct (Z.ltb_spec (Z.of_nat a) 0); [lia|].
    destruct (Z.ltb_spec (Z.of_nat b + 1) 0); [lia|].
    replace (Z.to_nat (Z.min (Z.of_nat a) _)) with a by lia.
    replace (Z.to_nat (Z.min (Z.of_nat b + 1) _)) with (S b) by lia.
    apply take_drop_seq. lia. }
  unfold np_mean, mean_over_range. rewrite Hs. unfold Py.len.
  by rewrite length_fmap, length_seq.
Qed.

(** The run of [compute_fef] once the three indices are known to be in
    order and in range. *)
Lemma compute_fef_run (flow volume : list Q) (volume_max : Q)
    (idx_25 idx_50 idx_75 : nat) :
  Py.len flow = Py.len volume → 1 < Py.len flow →
  reaches volume ((3 # 4) * volume_max) →
  np_argmax (np_ge volume ((1 # 4) * volume_max)) = Ok idx_25 →
  np_argmax (np_ge volume ((1 # 2) * volume_max)) = Ok idx_50 →
  np_argmax (np_ge volume ((3 # 4) * volume_max)) = Ok idx_75 →
  (idx_25 ≤ idx_50)%nat → (idx_50 ≤ idx_75)%nat →
  (idx_75 < length flow)%nat →
  ∃ fef25 fef50 fef75,
    flow !! idx_25 = Some fef25 ∧
    flow !! idx_50 = Some fef50 ∧
    flow !! idx_75 = Some fef75 ∧
    compute_fef flow volume volume_max
    = Ok (fef25, fef50, fef75,
          np_mean (Py.slice flow (Z.of_nat idx_25) (Z.of_nat idx_75 + 1))).
Proof.
  intros Hlen Hsize H75 Ha25 Ha50 Ha75 H1 H2 H3.
  destruct (lookup_lt_is_Some_2 flow idx_25) as [f25 Hf25]; [lia|].
  destruct (lookup_lt_is_Some_2 flow idx_50) as [f50 Hf50]; [lia|].
  destruct (lookup_lt_is_Some_2 flow idx_75) as [f75 Hf75]; [lia|].
  exists f25, f50, f75. split_and!; try done.
  rewrite compute_fef_sized by done.
  apply existsb_np_ge in H75. rewrite H75, Ha25, Ha50, Ha75.
  cbn [negb mbind result_bind].
  destruct (Nat.leb_spec idx_25 idx_50); [|lia].
  destruct (Nat.leb_spec idx_50 idx_75); [|lia].
  destruct (Z.ltb_spec (Z.of_nat idx_75) (Py.len flow));
    [|unfold Py.len in *; lia].
  cbn [andb py_assert mbind result_bind]. unfold Py.index.
  rewrite Hf25, Hf50, Hf75. reflexivity.
Qed.

Lemma compute_fef_is_ok (flow volume : list Q) (volume_max : Q) :
  Py.len flow = Py.len volume → 1 < Py.len flow →
  (0 <= volume_max)%Q →
  reaches volume ((3 # 4) * volume_max) →
  is_ok (compute_fef flow volume volume_max).
Proof.
  intros Hlen Hsize Hmax H75.
  destruct (fef_indices volume volume_max Hmax H75)
    as (i25 & i50 & i75 & Ha25 & Ha50 & Ha75 & _ & _ & _ & H1 & H2 & H3).
  assert (Hflow : (i75 < length flow)%nat) by (unfold Py.len in Hlen; lia).
  destruct (compute_fef_run flow volume volume_max i25 i50 i75)
    as (f25 & f50 & f75 & _ & _ & _ & Hok); try done.
  eexists. exact Hok.
Qed.




(** ** Failures of [compute_fef] *)

Lemma np_argmax_Ok (volume : list Q) (t : Q) :
  volume ≠ [] → ∃ i, np_argmax (np_ge volume t) = Ok i.
Proof. destruct volume; [done|]. intros _. eexists. reflexivity. Qed.

(** The only [ValueError] of [compute_fef] is the insufficient-data one. *)
Lemma compute_fef_ValueError (flow volume : list Q) (volume_max : Q) :
  compute_fef flow volume volume_max = Raise ValueError →
  ¬ reaches volume ((3 # 4) * volume_max).
Proof.
  unfold compute_fef. intros Hrun Hreach.
  destruct (Py.len flow =? Py.len volume); [|done].
  destruct (1 <? Py.len flow); [|done].
  cbn [py_assert mbind result_bind] in Hrun.
  assert (Hne : volume ≠ []) by (destruct Hreach as ([|?] & ? & ? & _); by destruct volume).
  apply existsb_np_ge in Hreach. rewrite Hreach in Hrun.
  destruct (np_argmax_Ok volume ((1 # 4) * volume_max) Hne) as [i25 H25].
  destruct (np_argmax_Ok volume ((1 # 2) * volume_max) Hne) as [i50 H50].
  destruct (np_argmax_Ok volume ((3 # 4) * volume_max) Hne) as [i75 H75].
  rewrite H25, H50, H75 in Hrun. cbn [negb mbind result_bind] in Hrun.
  destruct (_ && _); [|done]. cbn [py_assert mbind result_bind] in Hrun.
  unfold Py.index in Hrun.
  destruct (flow !! i25); [|done]. cbn [mbind result_bind] in Hrun.
  destruct (flow !! i50); [|done]. cbn [mbind result_bind] in Hrun.
  destruct (flow !! i75); done.
Qed.





(** C7 (amended): for flow and volume of equal length above one, a
    non-negative [volume_max] and some sample at or above three quarters of
    it, the indices found by [np.argmax] satisfy
    [idx_25 <= idx_50 <= idx_75 < len(flow)], and [compute_fef] does not
    raise [AssertionError]. *)
Theorem compute_fef_indices_ordered (flow volume : list Q) (volume_max : Q) :
  Py.len flow = Py.len volume → 1 < Py.len flow →
  (0 <= volume_max)%Q →
  reaches volume ((3 # 4) * volume_max) →
  (∃ idx_25 idx_50 idx_75,
     np_argmax (np_ge volume ((1 # 4) * volume_max)) = Ok idx_25 ∧
     np_argmax (np_ge volume ((1 # 2) * volume_max)) = Ok idx_50 ∧
     np_argmax (np_ge volume ((3 # 4) * volume_max)) = Ok idx_75 ∧
     (idx_25 ≤ idx_50)%nat ∧ (idx_50 ≤ idx_75)%nat ∧
     (idx_75 < length flow)%nat) ∧
  compute_fef flow volume volume_max ≠ Raise AssertionError.
Proof.
  intros Hlen Hsize Hmax Hreach. split.
  - destruct (fef_indices volume volume_max Hmax Hreach)
      as (i25 & i50 & i75 & Ha25 & Ha50 & Ha75 & _ & _ & _ & H1 & H2 & H3).
    exists i25, i50, i75. split_and!; try done.
    unfold Py.len in Hlen. lia.
  - destruct (compute_fef_is_ok flow volume volume_max Hlen Hsize Hmax
                Hreach) as [fef Hok].
    congruence.
Qed.

Lemma compute_fef_indices_ordered_witness :
  (∃ idx_25 idx_50 idx_75,
     np_argmax (np_ge [0; 1; 2; 3; 4]%Q ((1 # 4) * 4)) = Ok idx_25 ∧
     np_argmax (np_ge [0; 1; 2; 3; 4]%Q ((1 # 2) * 4)) = Ok idx_50 ∧
     np_argmax (np_ge [0; 1; 2; 3; 4]%Q ((3 # 4) * 4)) = Ok idx_75 ∧
     (idx_25 ≤ idx_50)%nat ∧ (idx_50 ≤ idx_75)%nat ∧
     (idx_75 < length [0; 1; 1; 1; 1]%Q)%nat) ∧
  compute_fef [0; 1; 1; 1; 1]%Q [0; 1; 2; 3; 4]%Q 4 ≠ Raise AssertionError.
Proof.
  apply (compute_fef_indices_ordered [0; 1; 1; 1; 1]%Q [0; 1; 2; 3; 4]%Q 4).
  - reflexivity.
  - reflexivity.
  - lra.
  - exists 3%nat, 3%Q. split; [reflexivity | lra].
Defined.

(** C7 (as stated) fails for a negative [volume_max]: the thresholds then
    decrease, the first crossings come in the opposite order, and the index
    assertion of [compute_fef] fails. *)
Lemma compute_fef_indices_reversed :
  Py.len [0; 1; 1; 1]%Q = Py.len [-4; -3; -2; -1]%Q ∧
  1 < Py.len [0; 1; 1; 1]%Q ∧
  reaches [-4; -3; -2; -1]%Q ((3 # 4) * -4) ∧
  np_argmax (np_ge [-4; -3; -2; -1]%Q ((1 # 4) * -4)) = Ok 3%nat ∧
  np_argmax (np_ge [-4; -3; -2; -1]%Q ((1 # 2) * -4)) = Ok 2%nat ∧
  np_argmax (np_ge [-4; -3; -2; -1]%Q ((3 # 4) * -4)) = Ok 1%nat ∧
  compute_fef [0; 1; 1; 1]%Q [-4; -3; -2; -1]%Q (-4) = Raise AssertionError.
Proof.
  split_and!; try reflexivity.
  exists 1%nat, (-3)%Q. split; [reflexivity | lra].
Qed.

(** ** [compute_fef] in the pipeline *)

Lemma foldl_np_maximum_elem (tl : list Q) : ∀ x,
  foldl np_maximum x tl ∈ x :: tl.
Proof.
  induction tl as [|y tl IH]; intros x; simpl.
  - apply list_elem_of_here.
  - pose proof (IH (np_maximum x y)) as Hin.
    apply elem_of_cons in Hin as [->|Hin].
    + unfold np_maximum. destruct (Qle_bool x y).
      * apply list_elem_of_further, list_elem_of_here.
      * apply list_elem_of_here.
    + by do 2 apply list_elem_of_further.
Qed.

Lemma foldl_np_maximum_ge (tl : list Q) : ∀ x,
  (x <= foldl np_maximum x tl)%Q.
Proof.
  induction tl as [|y tl IH]; intros x; simpl; [apply Qle_refl|].
  pose proof (IH (np_maximum x y)). pose proof (np_maximum_ge_l x y). lra.
Qed.

(** C9: when [volume_max] is [max(volume)] and is non-negative, the sample
    attaining the maximum is at or above three quarters of [volume_max], so
    [compute_fef] never raises its [ValueError]. *)
Theorem compute_fef_max_reached (volume : list Q) (vmax : Q) :
  np_max volume = Ok vmax →
  (0 <= vmax)%Q →
  (∃ i : nat, volume !! i = Some vmax ∧ ((3 # 4) * vmax <= vmax)%Q) ∧
  ∀ flow, compute_fef flow volume vmax ≠ Raise ValueError.
Proof.
  intros Hmax Hpos.
  assert (Hat : ∃ i : nat, volume !! i = Some vmax).
  { destruct volume as [|x tl]; [done|]. injection Hmax as <-.
    apply list_elem_of_lookup, foldl_np_maximum_elem. }
  destruct Hat as [i Hi]. split.
  - exists i. split; [done | lra].
  - intros flow Hrun. apply compute_fef_ValueError in Hrun. apply Hrun.
    exists i, vmax. split; [done | lra].
Qed.

Lemma compute_fef_max_reached_witness :
  (∃ i : nat, [0; 1; 2; 3; 4]%Q !! i = Some 4%Q ∧ ((3 # 4) * 4 <= 4)%Q) ∧
  ∀ flow, compute_fef flow [0; 1; 2; 3; 4]%Q 4 ≠ Raise ValueError.
Proof.
  apply (compute_fef_max_reached [0; 1; 2; 3; 4]%Q 4); [reflexivity | lra].
Defined.

(** A non-negative series scaled by a positive factor has a non-negative
    maximum. *)
Lemma compute_volume_max_nonneg (series : list Z) (volume_scale vmax : Q) :
  (∀ s, s ∈ series → 0 ≤ s) →
  (0 < volume_scale)%Q →
  np_max (compute_volume series volume_scale) = Ok vmax →
  (0 <= vmax)%Q.
Proof.
  intros Hnn Hscale. destruct series as [|s tl]; [done|].
  simpl. intros Hmax. injection Hmax as <-.
  pose proof (foldl_np_maximum_ge
    ((λ s, inject_Z s * volume_scale)%Q <$> tl)
    (inject_Z s * volume_scale)%Q) as Hge.
  assert (0 <= inject_Z s * volume_scale)%Q.
  { apply Qmult_le_0_compat; [|lra].
    change 0%Q with (inject_Z 0). rewrite <- Zle_Qle. apply Hnn.
    apply list_elem_of_here. }
  unfold compute_volume in *. lra.
Qed.

(** The pipeline's call: on the base curves of a non-negative series with a
    positive volume scale, [compute_fef] does not raise [ValueError]. *)
Lemma blow_fef_no_ValueError (series : list Z) (volume_scale time_scale : Q)
    (row : base_curves) :
  (∀ s, s ∈ series → 0 ≤ s) →
  (0 < volume_scale)%Q →
  derive_base_curves_row series volume_scale time_scale = Ok row →
  blow_fef row ≠ Raise ValueError.
Proof.
  intros Hnn Hscale. unfold derive_base_curves_row.
  destruct (np_max (compute_volume series volume_scale)) as [vmax|e] eqn:Hmax;
    cbn [mbind result_bind]; [|done].
  destruct (Py.index (compute_volume _ _) _) as [vlast|?];
    cbn [mbind result_bind]; [|done].
  destruct (np_max (compute_flow _ _)) as [fmax|?];
    cbn [mbind result_bind]; [|done].
  destruct (Py.index (compute_flow _ _) _) as [flast|?];
    cbn [mbind result_bind]; [|done].
  intros Hrow. injection Hrow as <-. unfold blow_fef. simpl.
  assert (Hpos : (0 <= vmax)%Q)
    by (by apply (compute_volume_max_nonneg series volume_scale)).
  assert (Hat : ∃ i : nat, compute_volume series volume_scale !! i = Some vmax).
  { revert Hmax. destruct (compute_volume series volume_scale) as [|x tl];
      [done|]. intros Hmax. injection Hmax as <-.
    apply list_elem_of_lookup, foldl_np_maximum_elem. }
  destruct Hat as [i Hi]. intros Hrun.
  apply compute_fef_ValueError in Hrun. apply Hrun.
  exists i, vmax. split; [done | lra].
Qed.

(** The end-to-end example of the specification. *)
Example end_to_end :
  snd (trim_records example_heap [0%nat])
    = Ok [ <[SPIRO_RECORD_SERIES_KEY := PySeq [0; 1; 2; 3; 4]]> example_record ] ∧
  compute_volume [0; 1; 2; 3; 4] 1 = [0 * 1; 1 * 1; 2 * 1; 3 * 1; 4 * 1]%Q ∧
  compute_flow [0; 1; 2; 3; 4]%Q 1
    = [0; (1 - 0) / 1; (2 - 1) / 1; (3 - 2) / 1; (4 - 3) / 1]%Q ∧
  np_max [0; 1; 2; 3; 4]%Q = Ok 4%Q ∧
  first_crossing [0; 1; 2; 3; 4]%Q ((1 # 4) * 4) 1.
Proof.
  split_and!; try reflexivity.
  split.
  - exists 1%Q. split; [reflexivity | lra].
  - intros j v Hj Hv. assert (j = 0%nat) as -> by lia.
    injection Hv as <-. lra.
Qed.

(** * Further properties *)

(** ** [trim_records]: repeated calls and failures *)

Lemma trim_loop_app (l1 l2 : list nat) : ∀ h,
  trim_loop h (l1 ++ l2) =
    match trim_loop h l1 with
    | (h1, Ok _) => trim_loop h1 l2
    | (h1, Raise e) => (h1, Raise e)
    end.
Proof.
  induction l1 as [|r l1 IH]; intros h; simpl; [done|].
  destruct (trimmed_series_of (deref h r)); [apply IH | done].
Qed.

Lemma setitem_same (h : heap) (r : nat) key v :
  deref h r !! key = Some v → setitem h r key v = h.
Proof.
  intros Hv. unfold setitem. rewrite (insert_id (deref h r)) by done.
  apply insert_id. unfold deref in *.
  destruct (h !! r) as [d|]; [done|]. simpl in Hv.
  by rewrite lookup_empty in Hv.
Qed.

(** On records whose stored series is already its own trimmed series the
    loop changes nothing. *)
Lemma trim_loop_fixed (records : list nat) (h : heap) :
  (∀ r, r ∈ records →
     ∃ t, deref h r !! SPIRO_RECORD_SERIES_KEY = Some (PySeq t) ∧
          trimmed_series_of (deref h r) = Ok t) →
  trim_loop h records = (h, Ok tt).
Proof.
  induction records as [|r rest IH]; intros Hfix; simpl; [done|].
  destruct (Hfix r) as (t & Hs & Ht); [apply list_elem_of_here|].
  rewrite Ht, setitem_same by done. apply IH.
  intros r' Hr'. apply Hfix. by apply list_elem_of_further.
Qed.

Lemma trim_loop_keeps_fixed (records : list nat) : ∀ h h' r t,
  trim_loop h records = (h', Ok tt) →
  deref h r !! SPIRO_RECORD_SERIES_KEY = Some (PySeq t) →
  trimmed_series_of (deref h r) = Ok t →
  deref h' r = deref h r.
Proof.
  induction records as [|r0 rest IH]; intros h h' r t Hrun Hs Ht;
    simpl in Hrun.
  - by injection Hrun as <-.
  - destruct (trimmed_series_of (deref h r0)) as [t0|e] eqn:Ht0;
      [|by injection Hrun].
    destruct (decide (r0 = r)) as [->|Hne].
    + rewrite Ht in Ht0. injection Ht0 as <-.
      rewrite setitem_same in Hrun by done. by apply (IH _ _ _ t Hrun).
    + rewrite <- (deref_setitem_ne h r0 r SPIRO_RECORD_SERIES_KEY
                    (PySeq t0) Hne).
      apply (IH _ _ _ t Hrun); by rewrite deref_setitem_ne.
Qed.

Lemma trim_loop_result_fixed (records : list nat) : ∀ h h',
  trim_loop h records = (h', Ok tt) →
  (∀ r n, r ∈ records →
     deref h r !! SPIRO_RECORD_BLOW_NUM_POINTS_KEY = Some (PyInt n) → 0 ≤ n) →
  ∀ r, r ∈ records →
    ∃ t, deref h' r !! SPIRO_RECORD_SERIES_KEY = Some (PySeq t) ∧
         trimmed_series_of (deref h' r) = Ok t.
Proof.
  induction records as [|r0 rest IH]; intros h h' Hrun Hnn r Hin.
  - by apply elem_of_nil in Hin.
  - simpl in Hrun.
    destruct (trimmed_series_of (deref h r0)) as [t0|e] eqn:Ht0;
      [|by injection Hrun].
    set (h1 := setitem h r0 SPIRO_RECORD_SERIES_KEY (PySeq t0)) in *.
    destruct (trimmed_series_of_Ok _ _ Ht0) as (s0 & n0 & Hs0 & Hn0 & _ & _).
    assert (Hfix0 : deref h1 r0 !! SPIRO_RECORD_SERIES_KEY = Some (PySeq t0) ∧
                    trimmed_series_of (deref h1 r0) = Ok t0).
    { unfold h1. rewrite deref_setitem_eq. split; [apply lookup_insert_eq|].
      apply (trimmed_series_of_idem _ _ n0 Ht0 Hn0).
      apply (Hnn r0 n0); [apply list_elem_of_here | done]. }
    destruct (decide (r ∈ rest)) as [Hrest|Hnot].
    + apply (IH h1 h' Hrun); [|done].
      intros r' n' Hr' Hn'. apply (Hnn r' n'); [by apply list_elem_of_further|].
      unfold h1 in Hn'. by rewrite deref_setitem_other_key in Hn'.
    + apply elem_of_cons in Hin as [->|?]; [|done].
      destruct Hfix0 as [Hs1 Ht1]. exists t0.
      by rewrite (trim_loop_keeps_fixed _ _ _ _ _ Hrun Hs1 Ht1).
Qed.

(** X1: trimming is idempotent.  After a successful call on records whose
    point counts are non-negative, a second call on the same records succeeds,
    changes nothing and returns the same dataframe. *)
Theorem trim_records_idempotent (h h' : heap) (records : list loc)
    (df : DataFrame) :
  trim_records h records = (h', Ok df) →
  (∀ r n, r ∈ records →
     deref h r !! SPIRO_RECORD_BLOW_NUM_POINTS_KEY = Some (PyInt n) → 0 ≤ n) →
  trim_records h' records = (h', Ok df).
Proof.
  unfold trim_records. intros Hrun Hnn.
  destruct (trim_loop h records) as [h1 [[]|e]] eqn:Hloop; [|discriminate].
  injection Hrun as -> <-.
  rewrite (trim_loop_fixed records h'); [done|].
  by apply (trim_loop_result_fixed records h h').
Qed.

Lemma trim_records_idempotent_witness :
  trim_records (trim_records example_heap [0%nat]).1 [0%nat]
  = ((trim_records example_heap [0%nat]).1,
     Ok [deref (trim_records example_heap [0%nat]).1 0%nat]).
Proof.
  apply (trim_records_idempotent example_heap).
  - vm_compute. reflexivity.
  - intros r n Hr Hn. apply list_elem_of_singleton in Hr as ->.
    vm_compute in Hn. injection Hn as <-. lia.
Defined.

(** X2: no rollback.  When the records before [r] trim successfully and
    trimming [r] then raises, the call raises the same exception and leaves
    the heap as it was after the earlier records: they stay trimmed, the
    later ones are not touched. *)
Theorem trim_records_stops_at_failure (h h1 : heap)
    (before after : list loc) (r : loc) (df : DataFrame) (e : exn) :
  trim_records h before = (h1, Ok df) →
  trimmed_series_of (deref h1 r) = Raise e →
  trim_records h (before ++ r :: after) = (h1, Raise e).
Proof.
  unfold trim_records. intros Hrun Hr.
  destruct (trim_loop h before) as [h2 [[]|e']] eqn:Hloop; [|discriminate].
  injection Hrun as -> _.
  rewrite trim_loop_app, Hloop. simpl. by rewrite Hr.
Qed.

Lemma trim_records_stops_at_failure_witness :
  trim_records (<[1%nat := unpadded_record]> example_heap) ([0%nat] ++ 1%nat :: [])
  = ((trim_records (<[1%nat := unpadded_record]> example_heap) [0%nat]).1,
     Raise AssertionError).
Proof.
  apply (trim_records_stops_at_failure _ _ _ _ _
           [deref (trim_records (<[1%nat := unpadded_record]> example_heap)
                     [0%nat]).1 0%nat]).
  - vm_compute. reflexivity.
  - vm_compute. reflexivity.
Defined.

Lemma clamp_pos {A} (l : list A) (k : Z) :
  0 ≤ k → Py.clamp l k = Z.to_nat (Z.min k (Py.len l)).
Proof. intros Hk. unfold Py.clamp. by destruct (Z.ltb_spec k 0); [lia|]. Qed.

Lemma clamp_neg {A} (l : list A) (k : Z) :
  k < 0 → Py.clamp l k = Z.to_nat (Z.max 0 (Py.len l + k)).
Proof. intros Hk. unfold Py.clamp. by destruct (Z.ltb_spec k 0); [|lia]. Qed.

Lemma take_all_zero (s : list Z) (k : nat) :
  (∀ x, x ∈ take k s → x = 0) ↔
  (∀ (i : nat) x, (i < k)%nat → s !! i = Some x → x = 0).
Proof.
  split.
  - intros H i x Hi Hx. apply H, list_elem_of_lookup. exists i.
    by rewrite lookup_take_lt.
  - intros H x Hx. apply list_elem_of_lookup in Hx as [i Hi].
    apply lookup_take_Some in Hi as [Hi Hlt]. by apply (H i).
Qed.

(** X3: which records the loop body accepts.  For a non-negative point
    count, trimming succeeds in exactly two cases: the series is longer than
    the point count and its padding is all zero (the result is the last
    [num_points + 1] samples); or the series is shorter than the point count
    but longer than half of it and its first [2 * len(series) - num_points]
    samples are zero, and then the series is kept whole.  Every other record,
    one with [len(series) = num_points] included, is rejected. *)
Theorem trimmed_series_of_accepts (record : dict) (series trimmed : list Z)
    (num_points : Z) :
  record !! SPIRO_RECORD_SERIES_KEY = Some (PySeq series) →
  record !! SPIRO_RECORD_BLOW_NUM_POINTS_KEY = Some (PyInt num_points) →
  0 ≤ num_points →
  trimmed_series_of record = Ok trimmed ↔
  (num_points < Py.len series ∧
   (∀ (i : nat) x, Z.of_nat i < Py.len series - num_points →
                   series !! i = Some x → x = 0) ∧
   trimmed = drop (Z.to_nat (Py.len series - num_points - 1)) series) ∨
  (Py.len series < num_points < 2 * Py.len series ∧
   (∀ (i : nat) x, Z.of_nat i < 2 * Py.len series - num_points →
                   series !! i = Some x → x = 0) ∧
   trimmed = series).
Proof.
  intros Hs Hn Hn0. rewrite (trimmed_series_of_unfold _ _ _ Hs Hn).
  assert (Hfrom : Py.slice_from series (- (num_points + 1))
                  = drop (Z.to_nat (Py.len series - num_points - 1)) series).
  { unfold Py.slice_from. rewrite clamp_neg by lia. f_equal. lia. }
  rewrite Hfrom. unfold Py.slice_to, Py.index. split.
  - intros Hrun.
    destruct (bool_decide _) eqn:Hset; cbn [py_assert mbind result_bind] in Hrun;
      [|done].
    apply bool_decide_eq_true, singleton_zero_set in Hset as [Hne Hzero].
    rewrite take_all_zero in Hzero.
    destruct (drop _ series !! 0%nat) as [x|] eqn:Hx;
      cbn [mbind result_bind] in Hrun; [|done].
    destruct (Z.eqb_spec 0 x); cbn [py_assert mbind result_bind] in Hrun;
      [|done].
    injection Hrun as <-.
    destruct (Z.lt_trichotomy (Py.len series) num_points) as [Hlt|[Heq|Hgt]].
    + right. rewrite clamp_neg in Hne, Hzero by lia.
      assert (num_points < 2 * Py.len series).
      { destruct (Z.lt_ge_cases num_points (2 * Py.len series)); [done|].
        exfalso. apply Hne.
        replace (Z.to_nat _) with 0%nat by lia. apply take_0. }
      split; [lia|]. split.
      * intros i x' Hi. apply Hzero. lia.
      * replace (Z.to_nat _) with 0%nat by lia. by rewrite drop_0.
    + exfalso. apply Hne. rewrite clamp_pos by lia.
      replace (Z.to_nat _) with 0%nat by lia. apply take_0.
    + left. rewrite clamp_pos in Hzero by lia. split; [lia|]. split; [|done].
      intros i x' Hi. apply Hzero. lia.
  - intros [(Hlt & Hzero & ->)|(Hlt & Hzero & ->)].
    + rewrite bool_decide_true.
      2:{ apply singleton_zero_set. rewrite clamp_pos by lia. split.
          - intros Heq. apply (f_equal length) in Heq.
            rewrite length_take in Heq. unfold Py.len in *. simpl in Heq. lia.
          - apply take_all_zero. intros i x Hi. apply Hzero. lia. }
      cbn [py_assert mbind result_bind].
      rewrite lookup_drop, Nat.add_0_r.
      destruct (series !! _) as [x|] eqn:Hx.
      2:{ apply lookup_ge_None in Hx. unfold Py.len in *. lia. }
      assert (x = 0) as ->.
      { eapply Hzero; [|exact Hx]. unfold Py.len in *. lia. }
      done.
    + rewrite bool_decide_true.
      2:{ apply singleton_zero_set. rewrite clamp_neg by lia. split.
          - intros Heq. apply (f_equal length) in Heq.
            rewrite length_take in Heq. unfold Py.len in *. simpl in Heq. lia.
          - apply take_all_zero. intros i x Hi. apply Hzero. lia. }
      cbn [py_assert mbind result_bind].
      replace (Z.to_nat _) with 0%nat by lia. rewrite drop_0.
      destruct series as [|x tl]; [unfold Py.len in Hlt; simpl in Hlt; lia|].
      simpl.
      rewrite (Hzero 0%nat x); [done | unfold Py.len in *; simpl length in *; lia | done].
Qed.

Lemma trimmed_series_of_accepts_witness :
  trimmed_series_of
    {[ SPIRO_RECORD_BLOW_NUM_POINTS_KEY := PyInt 4;
       SPIRO_RECORD_SERIES_KEY := PySeq [0; 0; 5] ]}
  = Ok [0; 0; 5].
Proof.
  apply (trimmed_series_of_accepts _ [0; 0; 5] [0; 0; 5] 4);
    [reflexivity | reflexivity | lia |].
  right. split; [vm_compute; done|]. split; [|done].
  intros i x Hi Hx. change (Py.len [0; 0; 5]) with 3 in Hi.
  destruct i as [|[|i]]; simpl in Hx; [congruence | congruence | lia].
Defined.

(** X4: a record with a non-zero sample in its padding is rejected.  When
    some sample before the last [num_points] ones is not zero, the call
    raises [AssertionError] at that record and the heap is as it was. *)
Theorem trim_records_nonzero_padding (h : heap) (r : loc) (rest : list loc)
    (series : list Z) (num_points : Z) (i : nat) (x : Z) :
  deref h r !! SPIRO_RECORD_SERIES_KEY = Some (PySeq series) →
  deref h r !! SPIRO_RECORD_BLOW_NUM_POINTS_KEY = Some (PyInt num_points) →
  Z.of_nat i < Py.len series - num_points →
  series !! i = Some x →
  x ≠ 0 →
  trim_records h (r :: rest) = (h, Raise AssertionError).
Proof.
  intros Hs Hn Hi Hx Hx0. unfold trim_records. simpl.
  rewrite (trimmed_series_of_unfold _ _ _ Hs Hn).
  rewrite bool_decide_false; [done|].
  intros Hset. apply singleton_zero_set in Hset as [_ Hzero].
  apply Hx0, Hzero, list_elem_of_lookup. exists i.
  unfold Py.slice_to. rewrite lookup_take_lt; [done|].
  apply lookup_lt_Some in Hx. rewrite clamp_pos by lia.
  unfold Py.len in *. lia.
Qed.

Lemma trim_records_nonzero_padding_witness :
  trim_records
    {[ 0%nat := {[ SPIRO_RECORD_BLOW_NUM_POINTS_KEY := PyInt 2;
                   SPIRO_RECORD_SERIES_KEY := PySeq [0; 3; 0; 1; 2] ]} ]}
    [0%nat]
  = ({[ 0%nat := {[ SPIRO_RECORD_BLOW_NUM_POINTS_KEY := PyInt 2;
                    SPIRO_RECORD_SERIES_KEY := PySeq [0; 3; 0; 1; 2] ]} ]},
     Raise AssertionError).
Proof.
  apply (trim_records_nonzero_padding _ 0%nat [] [0; 3; 0; 1; 2] 2 1%nat 3);
    [reflexivity | reflexivity | vm_compute; done | reflexivity | lia].
Defined.

(** X5: a record without a ['series'] or a ['num_points'] entry raises
    [KeyError], and the heap is as it was. *)
Theorem trim_records_missing_key (h : heap) (r : loc) (rest : list loc) :
  deref h r !! SPIRO_RECORD_SERIES_KEY = None ∨
  deref h r !! SPIRO_RECORD_BLOW_NUM_POINTS_KEY = None →
  trim_records h (r :: rest) = (h, Raise KeyError).
Proof.
  intros Hmiss. unfold trim_records. simpl.
  unfold trimmed_series_of, getitem.
  destruct (deref h r !! SPIRO_RECORD_SERIES_KEY) as [v|];
    destruct (deref h r !! SPIRO_RECORD_BLOW_NUM_POINTS_KEY) as [w|];
    try done; by destruct Hmiss.
Qed.

Lemma trim_records_missing_key_witness :
  trim_records
    {[ 0%nat := {[ SPIRO_RECORD_SERIES_KEY := PySeq [0; 1; 2] ]} ]} [0%nat]
  = ({[ 0%nat := {[ SPIRO_RECORD_SERIES_KEY := PySeq [0; 1; 2] ]} ]},
     Raise KeyError).
Proof.
  apply (trim_records_missing_key _ 0%nat []). right. reflexivity.
Defined.

(** ** [derive_base_curves] *)

Lemma np_maximum_ge_r (a b : Q) : (b <= np_maximum a b)%Q.
Proof.
  unfold np_maximum. destruct (Qle_bool a b) eqn:E; [apply Qle_refl|].
  destruct (Qlt_le_dec a b) as [Hlt|Hle]; [|done].
  assert (Qle_bool a b = true) by (apply Qle_bool_iff; lra). congruence.
Qed.

Lemma foldl_np_maximum_upper (tl : list Q) : ∀ x y,
  y ∈ x :: tl → (y <= foldl np_maximum x tl)%Q.
Proof.
  induction tl as [|z tl IH]; intros x y Hy; simpl.
  - apply list_elem_of_singleton in Hy as ->. apply Qle_refl.
  - pose proof (foldl_np_maximum_ge tl (np_maximum x z)) as Hge.
    apply elem_of_cons in Hy as [->|Hy].
    + pose proof (np_maximum_ge_l x z). lra.
    + apply elem_of_cons in Hy as [->|Hy].
      * pose proof (np_maximum_ge_r x z). lra.
      * apply IH. by apply list_elem_of_further.
Qed.

Lemma np_max_spec (a : list Q) (m : Q) :
  np_max a = Ok m → m ∈ a ∧ ∀ y, y ∈ a → (y <= m)%Q.
Proof.
  destruct a as [|x tl]; [done|]. intros Hm. injection Hm as <-. split.
  - apply foldl_np_maximum_elem.
  - intros y. apply foldl_np_maximum_upper.
Qed.

Lemma compute_flow_length (volume : list Q) (time_scale : Q) :
  volume ≠ [] → length (compute_flow volume time_scale) = length volume.
Proof.
  intros Hne. unfold compute_flow. simpl.
  rewrite length_fmap, np_diff_length. destruct volume; [done|]. simpl. lia.
Qed.

(** X6: what [derive_base_curves] records for a row.  For a non-zero time
    scale, when it succeeds the volume and flow curves are as long as the
    series; [volume_max] and [flow_max] are samples of their curves and bound
    every sample; [volume_last] and [flow_last] are the final samples; and
    [flow_max] is never negative, since the flow curve starts with [0]. *)
Theorem derive_base_curves_row_summaries (series : list Z)
    (volume_scale time_scale : Q) (row : base_curves) :
  ¬ (time_scale == 0)%Q →
  derive_base_curves_row series volume_scale time_scale = Ok row →
  row.(volume) = compute_volume series volume_scale ∧
  row.(flow) = compute_flow row.(volume) time_scale ∧
  length row.(volume) = length series ∧
  length row.(flow) = length series ∧
  (row.(volume_max) ∈ row.(volume) ∧
   ∀ v, v ∈ row.(volume) → (v <= row.(volume_max))%Q) ∧
  last row.(volume) = Some row.(volume_last) ∧
  (row.(flow_max) ∈ row.(flow) ∧
   ∀ f, f ∈ row.(flow) → (f <= row.(flow_max))%Q) ∧
  (0 <= row.(flow_max))%Q ∧
  last row.(flow) = Some row.(flow_last).
Proof.
  intros _. unfold derive_base_curves_row.
  destruct (np_max (compute_volume series volume_scale)) as [vmax|?] eqn:Hvmax;
    cbn [mbind result_bind]; [|done].
  unfold Py.index. rewrite <- !last_lookup.
  destruct (last (compute_volume _ _)) as [vlast|] eqn:Hvlast;
    cbn [mbind result_bind]; [|done].
  destruct (np_max (compute_flow _ _)) as [fmax|?] eqn:Hfmax;
    cbn [mbind result_bind]; [|done].
  destruct (last (compute_flow _ _)) as [flast|] eqn:Hflast;
    cbn [mbind result_bind]; [|done].
  intros Hrow. injection Hrow as <-.
  cbn [volume flow volume_max volume_last flow_max flow_last].
  assert (Hne : compute_volume series volume_scale ≠ []).
  { intros Heq. by rewrite Heq in Hvmax. }
  pose proof (np_max_spec _ _ Hvmax) as [Hv1 Hv2].
  pose proof (np_max_spec _ _ Hfmax) as [Hf1 Hf2].
  split_and!; try done.
  - unfold compute_volume. apply length_fmap.
  - rewrite compute_flow_length by done. unfold compute_volume.
    apply length_fmap.
  - apply Hf2. unfold compute_flow. apply list_elem_of_here.
Qed.

Lemma derive_base_curves_row_summaries_witness :
  ∃ row,
    derive_base_curves_row [0; 1; 2; 3; 4] 1 1 = Ok row ∧
    length row.(flow) = 5%nat ∧ (0 <= row.(flow_max))%Q.
Proof.
  eexists. split; [reflexivity|].
  assert (Hts : ¬ (1 == 0)%Q) by (intros Heq; discriminate Heq).
  destruct (derive_base_curves_row_summaries [0; 1; 2; 3; 4] 1 1 _ Hts eq_refl)
    as (_ & _ & _ & Hlen & _ & _ & _ & Hmax & _).
  split; [exact Hlen | exact Hmax].
Defined.

(** X7: [derive_base_curves] fails on a row exactly when its series is
    empty, and then with the [ValueError] of [np.max]. *)
Theorem derive_base_curves_row_fails_iff (series : list Z)
    (volume_scale time_scale : Q) :
  (derive_base_curves_row series volume_scale time_scale = Raise ValueError
   ↔ series = []) ∧
  (is_ok (derive_base_curves_row series volume_scale time_scale)
   ↔ series ≠ []).
Proof.
  destruct series as [|s tl].
  - split; [done|]. split; [|done]. by intros [row Hrow].
  - assert (Hok : is_ok (derive_base_curves_row (s :: tl) volume_scale
                           time_scale)).
    { unfold derive_base_curves_row. simpl np_max.
      cbn [mbind result_bind]. unfold Py.index. rewrite <- !last_lookup.
      destruct (last (compute_volume (s :: tl) volume_scale)) as [vl|] eqn:Hl.
      2:{ by apply last_None in Hl. }
      cbn [mbind result_bind]. unfold compute_flow at 1. simpl np_max.
      cbn [mbind result_bind].
      destruct (last (compute_flow _ _)) as [fl|] eqn:Hfl.
      2:{ by apply last_None in Hfl. }
      cbn [mbind result_bind]. by eexists. }
    split; split; try done.
    intros Hfail. destruct Hok as [row Hrow]. congruence.
Qed.

(** ** [compute_time] *)

Lemma inject_Z_nonzero (n : Z) : 0 < n → ¬ (inject_Z n == 0)%Q.
Proof.
  intros Hn Heq. unfold Qeq in Heq. simpl in Heq. lia.
Qed.

(** In exact arithmetic the [i]-th instant of the time axis is
    [i * time_scale]. *)
Lemma compute_time_instants (max_num_points : Z) (time_scale : Q) :
  (max_num_points < 0 →
   compute_time max_num_points time_scale = Raise ValueError) ∧
  (0 ≤ max_num_points →
   ∃ grid,
     compute_time max_num_points time_scale = Ok grid ∧
     Py.len grid = max_num_points ∧
     ∀ (i : nat) t, grid !! i = Some t →
       (t == inject_Z (Z.of_nat i) * time_scale)%Q).
Proof.
  unfold compute_time, np_linspace. split; intros HN.
  - by destruct (Z.ltb_spec max_num_points 0); [|lia].
  - destruct (Z.ltb_spec max_num_points 0); [lia|].
    cbn [andb mbind result_bind]. eexists. split; [reflexivity|]. split.
    + unfold Py.len.
      destruct (0 <? max_num_points); [destruct (Qeq_bool _ _)|];
        rewrite !length_fmap, length_seqZ; lia.
    + intros i t Ht.
      destruct (Z.ltb_spec 0 max_num_points) as [Hpos|Hzero].
      * pose proof (inject_Z_nonzero _ Hpos) as Hnz.
        destruct (Qeq_bool _ _);
          rewrite !list_lookup_fmap in Ht;
          destruct (seqZ 0 max_num_points !! i) as [k|] eqn:Hk;
          try discriminate;
          apply lookup_seqZ in Hk as [-> _]; simpl in Ht;
          injection Ht as <-; rewrite Z.add_0_l; field; exact Hnz.
      * replace max_num_points with 0 in Ht by lia. by destruct i.
Qed.

(** X8: the shared time axis.  [compute_time] fails exactly when
    [max_num_points] is negative, with the [ValueError] of [np.linspace];
    otherwise it returns exactly [max_num_points] instants, the first of
    which is [0], and for a time scale that is not negative the instants
    never decrease. *)
Theorem compute_time_spec (max_num_points : Z) (time_scale : Q) :
  (compute_time max_num_points time_scale = Raise ValueError
   ↔ max_num_points < 0) ∧
  (is_ok (compute_time max_num_points time_scale) ↔ 0 ≤ max_num_points) ∧
  ∀ grid,
    compute_time max_num_points time_scale = Ok grid →
    Py.len grid = max_num_points ∧
    (∀ t, grid !! 0%nat = Some t → (t == 0)%Q) ∧
    ((0 <= time_scale)%Q → nondecreasing grid).
Proof.
  destruct (compute_time_instants max_num_points time_scale)
    as [Hneg Hpos].
  destruct (Z.lt_ge_cases max_num_points 0) as [HN|HN].
  - rewrite (Hneg HN). split; [done|]. split; [|done].
    split; [by intros [grid Hgrid] | lia].
  - destruct (Hpos HN) as (grid & -> & Hlen & Hat).
    split; [split; [done|lia]|]. split; [split; [done | by eexists]|].
    intros grid' Hgrid. injection Hgrid as <-. split; [done|]. split.
    + intros t Ht. rewrite (Hat _ _ Ht).
      change (inject_Z (Z.of_nat 0)) with 0%Q. ring.
    + intros Hts i x y Hx Hy.
      rewrite (Hat _ _ Hx), (Hat _ _ Hy).
      apply Qmult_le_compat_r; [|done].
      rewrite <- Zle_Qle. lia.
Qed.

(** ** [right_pad_array]: failure and composition *)

Lemma right_pad_array_nonneg {A B} `{!AsType B A} (array : list A)
    (pad_value : B) (N : Z) :
  0 ≤ N →
  right_pad_array array pad_value N
  = Ok (take (Z.to_nat N) array
        ++ replicate (Z.to_nat N - length array) (astype pad_value)).
Proof.
  intros HN. unfold right_pad_array, np_pad_right.
  rewrite slice_to_nonneg by (unfold Py.len; lia).
  assert (Hkept : take (Z.to_nat (Z.min (Py.len array) N)) array
                  = take (Z.to_nat N) array).
  { unfold Py.len. destruct (Z.le_ge_cases (Z.of_nat (length array)) N).
    - rewrite Z.min_l, Nat2Z.id by done. rewrite !take_ge; [done|lia|lia].
    - by rewrite Z.min_r. }
  rewrite Hkept. unfold Py.len. rewrite length_take.
  destruct (Z.ltb_spec (N - Z.of_nat (Z.to_nat N `min` length array)) 0);
    [lia|].
  do 3 f_equal. lia.
Qed.

(** X9: [right_pad_array] fails exactly when the target length is negative,
    and then with the [ValueError] of [np.pad]. *)
Theorem right_pad_array_fails_iff {A B} `{!AsType B A} (array : list A)
    (pad_value : B) (max_num_points : Z) :
  (right_pad_array array pad_value max_num_points = Raise ValueError
   ↔ max_num_points < 0) ∧
  (is_ok (right_pad_array array pad_value max_num_points)
   ↔ 0 ≤ max_num_points).
Proof.
  destruct (Z.lt_ge_cases max_num_points 0) as [Hneg|Hpos].
  - rewrite right_pad_array_negative by done. split; split; try done; try lia.
    by intros [out Hout].
  - rewrite right_pad_array_nonneg by lia. split; split; try done; try lia.
    intros _. by eexists.
Qed.

(** X10: truncating a padded curve is padding to the shorter length.  When a
    curve has been brought to length [N], bringing the result to a length
    [M <= N] gives what [right_pad_array] gives on the curve itself for [M],
    whatever fill value the second call is given. *)
Theorem right_pad_array_compose {A B B'} `{!AsType B A} `{!AsType B' A}
    (array padded : list A) (pad_value : B) (pad_value' : B') (N M : Z) :
  0 ≤ M → M ≤ N →
  right_pad_array array pad_value N = Ok padded →
  right_pad_array padded pad_value' M = right_pad_array array pad_value M.
Proof.
  intros HM HMN. rewrite !right_pad_array_nonneg by lia.
  intros Hpad. injection Hpad as <-. f_equal.
  rewrite length_app, length_take, length_replicate, take_app, take_take,
    length_take, take_replicate.
  rewrite (Nat.min_l (Z.to_nat M) (Z.to_nat N)) by lia.
  assert (Hrest : (Z.to_nat M
                   - (Z.to_nat N `min` length array
                      + (Z.to_nat N - length array)) = 0)%nat) by lia.
  rewrite Hrest. simpl. rewrite app_nil_r. do 2 f_equal. lia.
Qed.

Lemma right_pad_array_compose_witness :
  right_pad_array [1; 2; 3; 0; 0] 9 4 = right_pad_array [1; 2; 3] 0 4.
Proof.
  apply (right_pad_array_compose [1; 2; 3] [1; 2; 3; 0; 0] 0 9 5 4);
    [lia | lia | reflexivity].
Defined.

(** ** [compute_flow_volume]: failures and the running maximum *)

(** X11: on real-valued curves (finite floats, which the rationals of this
    model stand for) [compute_flow_volume] succeeds exactly when [num_points]
    is not negative, the volume curve is not empty and the flow curve has the
    same length; every failure is then a [ValueError].  (A volume curve that
    holds NaN, or an infinite plateau, lies outside the model: on it the
    monotonicity guard raises.) *)
Theorem compute_flow_volume_fails_iff (flow volume : list Q)
    (min_volume max_volume : Q) (num_points : Z) :
  (is_ok (compute_flow_volume flow volume min_volume max_volume num_points)
   ↔ 0 ≤ num_points ∧ volume ≠ [] ∧ length flow = length volume) ∧
  (¬ is_ok (compute_flow_volume flow volume min_volume max_volume num_points)
   → compute_flow_volume flow volume min_volume max_volume num_points
     = Raise ValueError).
Proof.
  unfold compute_flow_volume.
  rewrite np_maximum_accumulate_diff. cbn [py_assert mbind result_bind].
  unfold np_linspace, np_interp.
  rewrite np_maximum_accumulate_length.
  destruct (Z.ltb_spec num_points 0) as [Hneg|Hpos]; cbn [mbind result_bind].
  { split; [|done]. split; [by intros [? ?] | lia]. }
  destruct volume as [|v volume]; simpl length; cbn [Nat.eqb].
  { split; [|done]. split; [by intros [? ?] | by intros (_ & ? & _)]. }
  destruct (Nat.eqb_spec (length flow) (S (length volume))) as [Heq|Hne];
    cbn [negb].
  - split; [|by intros []; eexists]. split; [done|]. intros _. by eexists.
  - split; [|done]. split; [by intros [? ?] | by intros (_ & _ & ?)].
Qed.

Lemma maximum_accumulate_from_nondecreasing (a : list Q) : ∀ m,
  nondecreasing (m :: a) → maximum_accumulate_from m a = a.
Proof.
  induction a as [|x tl IH]; intros m Hmono; [done|]. simpl.
  rewrite np_maximum_r by (apply (Hmono 0%nat); done).
  f_equal. apply IH. intros i y z Hy Hz. by apply (Hmono (S i)).
Qed.

Lemma np_maximum_accumulate_nondecreasing (a : list Q) :
  nondecreasing a → np_maximum_accumulate a = a.
Proof.
  destruct a as [|x tl]; [done|]. intros Hmono. simpl. f_equal.
  by apply maximum_accumulate_from_nondecreasing.
Qed.

Lemma np_maximum_accumulate_is_nondecreasing (a : list Q) :
  nondecreasing (np_maximum_accumulate a).
Proof.
  destruct a as [|x tl]; [by intros []|]. intros i y z.
  apply maximum_accumulate_from_step.
Qed.

Lemma maximum_accumulate_from_dominates (a : list Q) : ∀ m (i : nat) v w,
  a !! i = Some v → maximum_accumulate_from m a !! i = Some w → (v <= w)%Q.
Proof.
  induction a as [|x tl IH]; intros m i v w Hv Hw; [done|].
  destruct i as [|i]; simpl in Hv, Hw.
  - injection Hv as <-. injection Hw as <-. apply np_maximum_ge_r.
  - by apply (IH (np_maximum m x) i).
Qed.

(** X12: the monotonic step of [compute_flow_volume].  It leaves a
    non-decreasing volume curve as it is; in general its result is at or
    above the volume curve at every index; taking it twice changes nothing
    more; and [compute_flow_volume] depends on the volume curve only through
    it. *)
Theorem monotonic_volume_properties (volume : list Q) :
  (nondecreasing volume → np_maximum_accumulate volume = volume) ∧
  (∀ (i : nat) v w, volume !! i = Some v →
     np_maximum_accumulate volume !! i = Some w → (v <= w)%Q) ∧
  np_maximum_accumulate (np_maximum_accumulate volume)
  = np_maximum_accumulate volume ∧
  ∀ flow min_volume max_volume num_points,
    compute_flow_volume flow (np_maximum_accumulate volume)
      min_volume max_volume num_points
    = compute_flow_volume flow volume min_volume max_volume num_points.
Proof.
  assert (Hidem : np_maximum_accumulate (np_maximum_accumulate volume)
                  = np_maximum_accumulate volume).
  { apply np_maximum_accumulate_nondecreasing,
      np_maximum_accumulate_is_nondecreasing. }
  split_and!; [apply np_maximum_accumulate_nondecreasing| |done|].
  - destruct volume as [|x tl]; [done|]. intros [|i] v w Hv Hw.
    + simpl in Hv, Hw. injection Hv as <-. injection Hw as <-.
      apply Qle_refl.
    + by apply (maximum_accumulate_from_dominates tl x i).
  - intros flow lo hi n. unfold compute_flow_volume. by rewrite Hidem.
Qed.

(** ** [compute_flow_volume]: interpolation at the sample points *)

Lemma increasing_lt (a : list Q) : increasing a →
  ∀ (k i : nat) x y, (i < k)%nat → a !! i = Some x → a !! k = Some y →
    (x < y)%Q.
Proof.
  intros Hinc. induction k as [|k IH]; intros i x y Hik Hx Hy; [lia|].
  destruct (a !! k) as [z|] eqn:Hz.
  2:{ apply lookup_ge_None in Hz. apply lookup_lt_Some in Hy. lia. }
  pose proof (Hinc k z y Hz Hy) as Hstep.
  destruct (decide (i = k)) as [->|Hne].
  - rewrite Hx in Hz. injection Hz as <-. done.
  - pose proof (IH i x z ltac:(lia) Hx eq_refl). lra.
Qed.

Lemma increasing_nondecreasing (a : list Q) :
  increasing a → nondecreasing a.
Proof. intros Hinc i x y Hx Hy. apply Qlt_le_weak. by apply (Hinc i). Qed.

Lemma interp_search_spec (key : Q) (l : list Q) : ∀ k : nat,
  (∀ (i : nat) a, (i < k)%nat → l !! i = Some a → (a <= key)%Q) →
  (∀ a, l !! k = Some a → (key < a)%Q) →
  (k ≤ length l)%nat →
  interp_search key l = k.
Proof.
  induction l as [|a l IH]; intros k Hbelow Habove Hk; simpl in *.
  - lia.
  - destruct k as [|k].
    + pose proof (Habove a eq_refl) as Hlt.
      destruct (Qle_bool a key) eqn:E; [|done].
      apply Qle_bool_iff in E. lra.
    + assert (Hle : Qle_bool a key = true).
      { apply Qle_bool_iff. apply (Hbelow 0%nat); [lia|done]. }
      rewrite Hle. f_equal. apply IH; [| |lia].
      * intros i b Hi Hb. apply (Hbelow (S i)); [lia|done].
      * intros b Hb. by apply Habove.
Qed.

Lemma Qle_bool_true (a b : Q) : (a <= b)%Q → Qle_bool a b = true.
Proof. apply Qle_bool_iff. Qed.

(** At a sample point of an increasing [xp], [np.interp] returns the
    sample's value. *)
Lemma interp_point_at_sample (xp fp : list Q) (left right x : Q)
    (j : nat) (v f : Q) :
  increasing xp →
  xp !! j = Some v → fp !! j = Some f → (x == v)%Q →
  interp_point xp fp left right x = f.
Proof.
  intros Hinc Hv Hf Hx.
  assert (Hj : (j < length xp)%nat) by (by apply lookup_lt_Some in Hv).
  assert (Hnth : nth j xp 0%Q = v) by (by rewrite nth_lookup, Hv).
  assert (Hnthf : nth j fp 0%Q = f) by (by rewrite nth_lookup, Hf).
  assert (Hfirst : (nth 0 xp 0 <= x)%Q).
  { rewrite nth_lookup. destruct (xp !! 0%nat) as [x0|] eqn:H0; simpl.
    2:{ apply lookup_ge_None in H0. lia. }
    destruct j as [|j].
    - rewrite H0 in Hv. injection Hv as <-. lra.
    - pose proof (increasing_lt xp Hinc (S j) 0%nat x0 v ltac:(lia) H0 Hv).
      lra. }
  assert (Hlast : (x <= nth (pred (length xp)) xp 0)%Q).
  { rewrite nth_lookup.
    destruct (xp !! pred (length xp)) as [xn|] eqn:Hn; simpl.
    2:{ apply lookup_ge_None in Hn. lia. }
    destruct (decide (j = pred (length xp))) as [->|Hne].
    - rewrite Hn in Hv. injection Hv as <-. lra.
    - pose proof (increasing_lt xp Hinc (pred (length xp)) j v xn
                    ltac:(lia) Hv Hn). lra. }
  unfold interp_point.
  rewrite (Qle_bool_true _ _ Hfirst), (Qle_bool_true _ _ Hlast).
  cbn [negb].
  destruct (length xp =? 1)%nat eqn:E1.
  - apply Nat.eqb_eq in E1. assert (j = 0%nat) as -> by lia.
    assert (Hback : Qle_bool x (nth 0 xp 0%Q) = true).
    { apply Qle_bool_iff. rewrite Hnth. lra. }
    by rewrite Hback.
  - assert (Hsearch : interp_search x (tail xp) = j).
    { apply interp_search_spec.
      - intros i a Hi Ha. rewrite lookup_tail in Ha.
        destruct (decide (S i = j)) as [<-|Hne].
        + rewrite Ha in Hv. injection Hv as <-. lra.
        + pose proof (increasing_lt xp Hinc j (S i) a v ltac:(lia) Ha Hv).
          lra.
      - intros a Ha. rewrite lookup_tail in Ha.
        pose proof (Hinc j v a Hv Ha). lra.
      - destruct xp; simpl in *; lia. }
    rewrite Hsearch.
    destruct (j =? pred (length xp))%nat; [done|].
    assert (Heq : Qeq_bool (nth j xp 0%Q) x = true).
    { apply Qeq_bool_iff. rewrite Hnth. by symmetry. }
    by rewrite Heq.
Qed.

(** X13: interpolation reproduces the samples.  For an increasing volume
    curve, a query point of the grid that coincides with a volume sample gets
    the flow of that sample. *)
Theorem compute_flow_volume_at_sample (flow volume queries out : list Q)
    (min_volume max_volume : Q) (num_points : Z) (i j : nat) (q v f : Q) :
  increasing volume →
  compute_flow_volume flow volume min_volume max_volume num_points = Ok out →
  np_linspace min_volume max_volume num_points true = Ok queries →
  queries !! i = Some q →
  volume !! j = Some v → flow !! j = Some f →
  (q == v)%Q →
  out !! i = Some f.
Proof.
  intros Hinc Hrun Hgrid Hq Hv Hf Hqv. unfold compute_flow_volume in Hrun.
  rewrite np_maximum_accumulate_diff in Hrun.
  cbn [py_assert mbind result_bind] in Hrun.
  rewrite Hgrid in Hrun. cbn [mbind result_bind] in Hrun.
  apply np_interp_Ok in Hrun as (_ & _ & ->).
  rewrite np_maximum_accumulate_nondecreasing
    by (by apply increasing_nondecreasing).
  rewrite list_lookup_fmap, Hq. simpl. f_equal.
  by apply (interp_point_at_sample volume flow 0 0 q j v f).
Qed.

Lemma compute_flow_volume_at_sample_witness :
  [0; 1; 3; 1; 0; 0; 0]%Q !! 2%nat = Some 3%Q.
Proof.
  apply (compute_flow_volume_at_sample
           [0; 1; 3; 1]%Q [0; 1; 2; 3]%Q
           [0 # 6; 6 # 6; 12 # 6; 18 # 6; 24 # 6; 30 # 6; 6]%Q
           [0; 1; 3; 1; 0; 0; 0]%Q 0 6 7 2 2 (12 # 6) 2 3).
  - intros [|[|[|[|k]]]] x y Hx Hy; simpl in Hx, Hy; try discriminate;
      injection Hx as <-; injection Hy as <-; lra.
  - vm_compute. reflexivity.
  - vm_compute. reflexivity.
  - reflexivity.
  - reflexivity.
  - reflexivity.
  - reflexivity.
Defined.

(** ** [compute_fef]: outcomes and bounds *)

Lemma compute_fef_bad_size (flow volume : list Q) (volume_max : Q) :
  Py.len flow ≠ Py.len volume ∨ Py.len flow ≤ 1 →
  compute_fef flow volume volume_max = Raise AssertionError.
Proof.
  intros Hbad. unfold compute_fef.
  destruct (Z.eqb_spec (Py.len flow) (Py.len volume)); [|done].
  destruct (Z.ltb_spec 1 (Py.len flow)); [|done]. lia.
Qed.




Lemma compute_fef_Ok_inv (flow volume : list Q) (volume_max : Q)
    (fef25 fef50 fef75 fef25_75 : Q) :
  compute_fef flow volume volume_max = Ok (fef25, fef50, fef75, fef25_75) →
  ∃ idx_25 idx_50 idx_75 : nat,
    (idx_25 ≤ idx_50)%nat ∧ (idx_50 ≤ idx_75)%nat ∧
    (idx_75 < length flow)%nat ∧
    flow !! idx_25 = Some fef25 ∧
    flow !! idx_50 = Some fef50 ∧
    flow !! idx_75 = Some fef75 ∧
    fef25_75 = mean_over_range flow idx_25 idx_75.
Proof.
  intros Hrun.
  destruct (decide (Py.len flow = Py.len volume ∧ 1 < Py.len flow))
    as [[Hlen Hsize]|Hbad].
  2:{ rewrite compute_fef_bad_size in Hrun by lia. discriminate. }
  rewrite compute_fef_sized in Hrun by done.
  destruct (negb _); [done|].
  destruct (np_argmax (np_ge volume ((1 # 4) * volume_max))) as [i25|];
    cbn [mbind result_bind] in Hrun; [|done].
  destruct (np_argmax (np_ge volume ((1 # 2) * volume_max))) as [i50|];
    cbn [mbind result_bind] in Hrun; [|done].
  destruct (np_argmax (np_ge volume ((3 # 4) * volume_max))) as [i75|];
    cbn [mbind result_bind] in Hrun; [|done].
  destruct (Nat.leb_spec i25 i50); cbn [andb py_assert mbind result_bind] in Hrun;
    [|done].
  destruct (Nat.leb_spec i50 i75); cbn [andb py_assert mbind result_bind] in Hrun;
    [|done].
  destruct (Z.ltb_spec (Z.of_nat i75) (Py.len flow));
    cbn [andb py_assert mbind result_bind] in Hrun; [|done].
  unfold Py.index in Hrun.
  destruct (flow !! i25) as [a|] eqn:Ha; cbn [mbind result_bind] in Hrun;
    [|done].
  destruct (flow !! i50) as [b|] eqn:Hb; cbn [mbind result_bind] in Hrun;
    [|done].
  destruct (flow !! i75) as [c|] eqn:Hc; cbn [mbind result_bind] in Hrun;
    [|done].
  injection Hrun as <- <- <- <-.
  exists i25, i50, i75. unfold Py.len in *.
  split_and!; try done; try lia.
  apply np_mean_slice; lia.
Qed.

Lemma sum_bounds (l : list Q) (lo hi : Q) :
  (∀ x, x ∈ l → (lo <= x <= hi)%Q) →
  (inject_Z (Py.len l) * lo <= foldr Qplus 0 l
   <= inject_Z (Py.len l) * hi)%Q.
Proof.
  unfold Py.len. induction l as [|x l IH]; intros Hall.
  - simpl. change (inject_Z (Z.of_nat 0)) with 0%Q. lra.
  - pose proof (Hall x (list_elem_of_here _ _)) as Hx.
    pose proof (IH (λ y Hy, Hall y (list_elem_of_further _ _ _ Hy))) as Hl.
    simpl length. rewrite Nat2Z.inj_succ, <- Z.add_1_r, inject_Z_plus.
    simpl foldr. change (inject_Z 1) with 1%Q. lra.
Qed.

Lemma np_mean_bounds (l : list Q) (lo hi : Q) :
  l ≠ [] →
  (∀ x, x ∈ l → (lo <= x <= hi)%Q) →
  (lo <= np_mean l <= hi)%Q.
Proof.
  intros Hne Hall. pose proof (sum_bounds l lo hi Hall) as [Hlo Hhi].
  assert (Hpos : (0 < inject_Z (Py.len l))%Q).
  { change 0%Q with (inject_Z 0). rewrite <- Zlt_Qlt.
    unfold Py.len. destruct l; [done|]. simpl length. lia. }
  unfold np_mean. split.
  - apply Qle_shift_div_l; [done|]. lra.
  - apply Qle_shift_div_r; [done|]. lra.
Qed.

(** X15: the sampled FEF values stay within the range of the flow curve, and
    the mean keeps its sign.  When every flow sample lies between [lo] and
    [hi], so do [fef25], [fef50] and [fef75], which are samples of the
    curve; and [fef25_75] is not negative when no flow sample is negative,
    and not positive when none is positive.  (No more is said of the mean:
    in floating point its rounding can take it out of [[lo, hi]].) *)
Theorem compute_fef_bounds (flow volume : list Q) (volume_max lo hi : Q)
    (fef25 fef50 fef75 fef25_75 : Q) :
  (∀ f, f ∈ flow → (lo <= f <= hi)%Q) →
  compute_fef flow volume volume_max = Ok (fef25, fef50, fef75, fef25_75) →
  (lo <= fef25 <= hi)%Q ∧ (lo <= fef50 <= hi)%Q ∧
  (lo <= fef75 <= hi)%Q ∧
  ((0 <= lo)%Q → (0 <= fef25_75)%Q) ∧
  ((hi <= 0)%Q → (fef25_75 <= 0)%Q).
Proof.
  intros Hall Hrun.
  destruct (compute_fef_Ok_inv _ _ _ _ _ _ _ Hrun)
    as (i25 & i50 & i75 & H1 & H2 & H3 & Ha & Hb & Hc & ->).
  split; [|split; [|split]];
    try (apply Hall, list_elem_of_lookup; by eauto).
  assert (Hmean : (lo <= mean_over_range flow i25 i75 <= hi)%Q).
  { unfold mean_over_range.
    replace (Z.of_nat (S i75 - i25))
      with (Py.len ((λ k, nth k flow 0%Q) <$> seq i25 (S i75 - i25)))
      by (unfold Py.len; by rewrite length_fmap, length_seq).
    apply (np_mean_bounds ((λ k, nth k flow 0%Q) <$> seq i25 (S i75 - i25))).
    - destruct (S i75 - i25)%nat eqn:E; [lia|done].
    - intros x Hx. apply list_elem_of_fmap in Hx as (k & -> & Hk).
      apply elem_of_seq in Hk. apply Hall, list_elem_of_lookup. exists k.
      rewrite nth_lookup.
      destruct (flow !! k) eqn:Hfk; [done|].
      apply lookup_ge_None in Hfk. lia. }
  split; intros Hsign; lra.
Qed.

Lemma compute_fef_bounds_witness :
  (0 <= 1 <= 1)%Q ∧ (0 <= 1 <= 1)%Q ∧ (0 <= 1 <= 1)%Q ∧
  ((0 <= 0)%Q → (0 <= 3 # 3)%Q) ∧ ((1 <= 0)%Q → (3 # 3 <= 0)%Q).
Proof.
  apply (compute_fef_bounds [0; 1; 1; 1; 1]%Q [0; 1; 2; 3; 4]%Q 4 0 1).
  - intros f Hf.
    repeat (apply elem_of_cons in Hf as [->|Hf]; [lra|]).
    by apply elem_of_nil in Hf.
  - vm_compute. reflexivity.
Defined.

(** ** [derive_input_representations] *)

Lemma compute_time_length (max_num_points : Z) (time_scale : Q) grid :
  compute_time max_num_points time_scale = Ok grid →
  Py.len grid = max_num_points.
Proof.
  unfold compute_time.
  destruct (np_linspace _ _ _ _) as [g|] eqn:Hg; cbn [mbind result_bind];
    [|done].
  intros Hgrid. injection Hgrid as <-.
  apply np_linspace_length in Hg. unfold Py.len in *.
  by rewrite length_fmap.
Qed.

Lemma right_pad_array_Ok {A B} `{!AsType B A} (array out : list A)
    (pad_value : B) (N : Z) :
  right_pad_array array pad_value N = Ok out →
  0 ≤ N ∧
  out = take (Z.to_nat N) array
        ++ replicate (Z.to_nat N - length array) (astype pad_value) ∧
  Py.len out = N.
Proof.
  intros Hrun. destruct (Z.lt_ge_cases N 0) as [Hneg|Hpos].
  { by rewrite right_pad_array_negative in Hrun. }
  rewrite right_pad_array_nonneg in Hrun by lia. injection Hrun as <-.
  split; [lia|]. split; [done|].
  unfold Py.len. rewrite length_app, length_take, length_replicate. lia.
Qed.

Lemma compute_flow_volume_length (flow volume : list Q)
    (min_volume max_volume : Q) (num_points : Z) (out : list Q) :
  compute_flow_volume flow volume min_volume max_volume num_points = Ok out →
  Py.len out = num_points.
Proof.
  unfold compute_flow_volume.
  rewrite np_maximum_accumulate_diff. cbn [py_assert mbind result_bind].
  destruct (np_linspace _ _ _ _) as [queries|] eqn:Hgrid;
    cbn [mbind result_bind]; [|done].
  intros Hout. apply np_interp_Ok in Hout as (_ & _ & ->).
  apply np_linspace_length in Hgrid. unfold Py.len in *.
  by rewrite length_fmap.
Qed.

(** The successful run of the row function, column by column. *)
Lemma derive_input_representations_row_Ok (row : base_curves)
    (max_num_points : Z) (max_interp_volume time_scale : Q)
    (reps : input_representations) :
  derive_input_representations_row row max_num_points max_interp_volume
    time_scale = Ok reps →
  compute_time max_num_points time_scale = Ok reps.(time) ∧
  right_pad_array row.(volume) 0%Z max_num_points
    = Ok reps.(volume_pad_zero) ∧
  right_pad_array row.(volume) row.(volume_last) max_num_points
    = Ok reps.(volume_pad_last) ∧
  right_pad_array row.(flow) 0%Z max_num_points = Ok reps.(flow_pad_zero) ∧
  compute_flow_volume reps.(flow_pad_zero) reps.(volume_pad_zero) 0
    max_interp_volume max_num_points = Ok reps.(flow_volume_pad_zero) ∧
  blow_fef row
    = Ok (reps.(blow_fef25), reps.(blow_fef50), reps.(blow_fef75),
          reps.(blow_fef25_75)).
Proof.
  unfold derive_input_representations_row.
  destruct (compute_time _ _) as [t|] eqn:Ht; cbn [mbind result_bind];
    [|done].
  destruct (right_pad_array (volume row) 0%Z _) as [vpz|] eqn:Hvz;
    cbn [mbind result_bind]; [|done].
  destruct (right_pad_array (volume row) (volume_last row) _) as [vpl|]
    eqn:Hvl; cbn [mbind result_bind]; [|done].
  destruct (right_pad_array (flow row) 0%Z _) as [fpz|] eqn:Hfz;
    cbn [mbind result_bind]; [|done].
  destruct (compute_flow_volume _ _ _ _ _) as [fv|] eqn:Hfv;
    cbn [mbind result_bind]; [|done].
  destruct (blow_fef row) as [[[[a b] c] d]|] eqn:Hfef;
    cbn [mbind result_bind]; [|done].
  intros Hreps. injection Hreps as <-. by cbn.
Qed.

Lemma compute_flow_volume_Ok_nonempty (flow volume : list Q)
    (min_volume max_volume : Q) (num_points : Z) (out : list Q) :
  compute_flow_volume flow volume min_volume max_volume num_points = Ok out →
  volume ≠ [] ∧ length flow = length volume.
Proof.
  unfold compute_flow_volume.
  rewrite np_maximum_accumulate_diff. cbn [py_assert mbind result_bind].
  destruct (np_linspace _ _ _ _) as [queries|];
    cbn [mbind result_bind]; [|done].
  intros Hout. apply np_interp_Ok in Hout as (Hne & Hlen & _).
  rewrite np_maximum_accumulate_length in Hlen. split; [|done].
  intros ->. by apply Hne.
Qed.

(** A successful row has at least one output point: [np.interp] rejects
    an empty volume curve. *)
Lemma derive_input_representations_row_positive (row : base_curves)
    (max_num_points : Z) (max_interp_volume time_scale : Q)
    (reps : input_representations) :
  derive_input_representations_row row max_num_points max_interp_volume
    time_scale = Ok reps →
  1 ≤ max_num_points.
Proof.
  intros Hrun.
  apply derive_input_representations_row_Ok in Hrun
    as (_ & Hvz & _ & _ & Hfv & _).
  apply right_pad_array_Ok in Hvz as (_ & _ & Hvz).
  apply compute_flow_volume_Ok_nonempty in Hfv as [Hne _].
  unfold Py.len in Hvz. destruct (volume_pad_zero reps); [done|].
  simpl in Hvz. lia.
Qed.

(** X16: every fixed-length representation has the same length.  When
    [derive_input_representations] succeeds on a row, the time axis, the two
    padded volume curves, the padded flow curve and the flow-volume curve all
    have exactly [max_num_points] samples, and [max_num_points] is at least
    one. *)
Theorem derive_input_representations_row_lengths (row : base_curves)
    (max_num_points : Z) (max_interp_volume time_scale : Q)
    (reps : input_representations) :
  derive_input_representations_row row max_num_points max_interp_volume
    time_scale = Ok reps →
  1 ≤ max_num_points ∧
  Py.len reps.(time) = max_num_points ∧
  Py.len reps.(volume_pad_zero) = max_num_points ∧
  Py.len reps.(volume_pad_last) = max_num_points ∧
  Py.len reps.(flow_pad_zero) = max_num_points ∧
  Py.len reps.(flow_volume_pad_zero) = max_num_points.
Proof.
  intros Hrun.
  pose proof (derive_input_representations_row_positive _ _ _ _ _ Hrun).
  apply derive_input_representations_row_Ok in Hrun
    as (Ht & Hvz & Hvl & Hfz & Hfv & _).
  apply compute_time_length in Ht.
  apply right_pad_array_Ok in Hvz as (_ & _ & Hvz).
  apply right_pad_array_Ok in Hvl as (_ & _ & Hvl).
  apply right_pad_array_Ok in Hfz as (_ & _ & Hfz).
  pose proof (compute_flow_volume_length _ _ _ _ _ _ Hfv) as Hfvl.
  by split_and!.
Qed.

Lemma derive_input_representations_row_lengths_witness :
  ∃ reps,
    derive_base_curves_row [0; 1; 2; 3; 4] 1 1
    ≫= (λ row, derive_input_representations_row row 7 6 1) = Ok reps ∧
    Py.len reps.(volume_pad_last) = 7 ∧
    Py.len reps.(flow_volume_pad_zero) = 7.
Proof.
  eexists. split; [vm_compute; reflexivity|].
  destruct (derive_input_representations_row_lengths
              (BaseCurves [0 * 1; 1 * 1; 2 * 1; 3 * 1; 4 * 1]%Q (4 * 1)%Q
                 (4 * 1)%Q
                 (compute_flow [0 * 1; 1 * 1; 2 * 1; 3 * 1; 4 * 1]%Q 1)
                 ((4 * 1 - 3 * 1) / 1)%Q ((4 * 1 - 3 * 1) / 1)%Q)
              7 6 1 _ eq_refl) as (_ & _ & _ & Hl & _ & Hfv).
  split; [exact Hl | exact Hfv].
Defined.


Lemma padded_lookup {A} (l : list A) (x : A) (n i : nat) :
  (i < n)%nat →
  (take n l ++ replicate (n - length l) x) !! i = Some (default x (l !! i)).
Proof.
  intros Hi. destruct (l !! i) as [y|] eqn:Hy; simpl.
  - pose proof (lookup_lt_Some _ _ _ Hy).
    rewrite lookup_app_l by (rewrite length_take; lia).
    by rewrite lookup_take_lt.
  - apply lookup_ge_None in Hy.
    rewrite lookup_app_r by (rewrite length_take; lia).
    apply lookup_replicate_2. rewrite length_take. lia.
Qed.

(** X17: the last-value padding is a plateau.  When the fill value is the
    curve's last sample, sample [i] of the padded volume curve is
    [volume[i]] inside the curve and the last sample beyond it, that is
    [volume[min(i, len(volume) - 1)]]; so its final sample is the last value
    seen in the first [max_num_points] samples. *)
Theorem volume_pad_last_plateau (row : base_curves)
    (max_num_points : Z) (max_interp_volume time_scale : Q)
    (reps : input_representations) :
  last row.(volume) = Some row.(volume_last) →
  derive_input_representations_row row max_num_points max_interp_volume
    time_scale = Ok reps →
  (∀ i : nat, Z.of_nat i < max_num_points →
     reps.(volume_pad_last) !! i
     = row.(volume) !! (i `min` pred (length row.(volume)))%nat) ∧
  last reps.(volume_pad_last)
  = row.(volume) !! (pred (Z.to_nat max_num_points)
                     `min` pred (length row.(volume)))%nat.
Proof.
  intros Hlast Hrun.
  pose proof (derive_input_representations_row_positive _ _ _ _ _ Hrun)
    as HN.
  apply derive_input_representations_row_Ok in Hrun
    as (_ & _ & Hvl & _).
  apply right_pad_array_Ok in Hvl as (_ & Hvl & Hlen).
  assert (Hplateau : ∀ i : nat, Z.of_nat i < max_num_points →
    reps.(volume_pad_last) !! i
    = row.(volume) !! (i `min` pred (length row.(volume)))%nat).
  { intros i Hi. rewrite Hvl, padded_lookup by lia.
    rewrite last_lookup in Hlast.
    destruct (volume row !! i) as [v|] eqn:Hv; simpl.
    - apply lookup_lt_Some in Hv as Hlt.
      by rewrite Nat.min_l, Hv by lia.
    - apply lookup_ge_None in Hv.
      by rewrite Nat.min_r, Hlast by lia. }
  split; [done|].
  rewrite last_lookup. unfold Py.len in Hlen.
  replace (length (volume_pad_last reps)) with (Z.to_nat max_num_points)
    by lia.
  apply Hplateau. lia.
Qed.

Lemma volume_pad_last_plateau_witness :
  ∃ reps,
    derive_input_representations_row
      (BaseCurves [0; 1; 2]%Q 2 2 [0; 1; 1]%Q 1 1) 5 6 1 = Ok reps ∧
    reps.(volume_pad_last) !! 4%nat = [0; 1; 2]%Q !! 2%nat.
Proof.
  eexists. split; [vm_compute; reflexivity|].
  destruct (volume_pad_last_plateau
              (BaseCurves [0; 1; 2]%Q 2 2 [0; 1; 1]%Q 1 1) 5 6 1 _
              eq_refl eq_refl) as [Hplateau _].
  apply (Hplateau 4%nat). lia.
Defined.

(** ** The derivation of one blow, end to end *)

Lemma derive_base_curves_row_fields (series : list Z)
    (volume_scale time_scale : Q) (row : base_curves) :
  derive_base_curves_row series volume_scale time_scale = Ok row →
  row.(volume) = compute_volume series volume_scale ∧
  row.(flow) = compute_flow row.(volume) time_scale ∧
  np_max row.(volume) = Ok row.(volume_max) ∧
  last row.(volume) = Some row.(volume_last).
Proof.
  unfold derive_base_curves_row.
  destruct (np_max (compute_volume series volume_scale)) as [vmax|?] eqn:Hvmax;
    cbn [mbind result_bind]; [|done].
  unfold Py.index. rewrite <- !last_lookup.
  destruct (last (compute_volume _ _)) as [vlast|] eqn:Hvlast;
    cbn [mbind result_bind]; [|done].
  destruct (np_max (compute_flow _ _)) as [fmax|?];
    cbn [mbind result_bind]; [|done].
  destruct (last (compute_flow _ _)) as [flast|];
    cbn [mbind result_bind]; [|done].
  intros Hrow. injection Hrow as <-. by cbn.
Qed.

Lemma derive_base_curves_row_nonempty (series : list Z)
    (volume_scale time_scale : Q) :
  series ≠ [] →
  is_ok (derive_base_curves_row series volume_scale time_scale).
Proof.
  destruct series as [|s tl]; [done|]. intros _.
  unfold derive_base_curves_row. simpl np_max.
  cbn [mbind result_bind]. unfold Py.index. rewrite <- !last_lookup.
  destruct (last (compute_volume (s :: tl) volume_scale)) as [vl|] eqn:Hl.
  2:{ by apply last_None in Hl. }
  cbn [mbind result_bind]. unfold compute_flow at 1. simpl np_max.
  cbn [mbind result_bind].
  destruct (last (compute_flow _ _)) as [fl|] eqn:Hfl.
  2:{ by apply last_None in Hfl. }
  cbn [mbind result_bind]. by eexists.
Qed.

Lemma compute_time_ok (max_num_points : Z) (time_scale : Q) :
  0 ≤ max_num_points → is_ok (compute_time max_num_points time_scale).
Proof.
  intros HN. unfold compute_time, np_linspace.
  destruct (Z.ltb_spec max_num_points 0); [lia|].
  cbn [mbind result_bind]. by eexists.
Qed.

Lemma compute_flow_volume_ok (flow volume : list Q)
    (min_volume max_volume : Q) (num_points : Z) :
  0 ≤ num_points → volume ≠ [] → length flow = length volume →
  is_ok (compute_flow_volume flow volume min_volume max_volume num_points).
Proof.
  intros HN Hne Hlen. unfold compute_flow_volume.
  rewrite np_maximum_accumulate_diff. cbn [py_assert mbind result_bind].
  unfold np_linspace, np_interp. rewrite np_maximum_accumulate_length.
  destruct (Z.ltb_spec num_points 0); [lia|]. cbn [mbind result_bind].
  destruct volume as [|v volume]; [done|]. simpl length. cbn [Nat.eqb].
  rewrite Hlen. simpl length. rewrite Nat.eqb_refl. cbn [negb].
  by eexists.
Qed.

(** A series of at least two non-negative samples goes through the whole
    derivation. *)
Lemma derive_blow_ok (series : list Z) (volume_scale time_scale : Q)
    (max_num_points : Z) (max_interp_volume : Q) :
  (∀ s, s ∈ series → 0 ≤ s) →
  (0 < volume_scale)%Q →
  (2 ≤ length series)%nat → 1 ≤ max_num_points →
  is_ok (derive_blow series volume_scale time_scale max_num_points
           max_interp_volume).
Proof.
  intros Hnn Hscale Hlen HN. unfold derive_blow.
  assert (Hne : series ≠ []) by (intros ->; simpl in Hlen; lia).
  destruct (derive_base_curves_row_nonempty series volume_scale time_scale
              Hne) as [row Hrow].
  rewrite Hrow. cbn [mbind result_bind].
  apply derive_base_curves_row_fields in Hrow as (Hv & Hf & Hmax & _).
  assert (Hvlen : length (volume row) = length series).
  { rewrite Hv. unfold compute_volume. apply length_fmap. }
  assert (Hvne : volume row ≠ []).
  { intros Heq. rewrite Heq in Hvlen. simpl in Hvlen. lia. }
  assert (Hflen : length (flow row) = length series).
  { rewrite Hf, compute_flow_length by done. exact Hvlen. }
  unfold derive_input_representations_row.
  destruct (compute_time_ok max_num_points time_scale) as [t Ht]; [lia|].
  rewrite Ht. cbn [mbind result_bind].
  rewrite !right_pad_array_nonneg by lia. cbn [mbind result_bind].
  destruct (compute_flow_volume_ok
              (take (Z.to_nat max_num_points) (flow row)
               ++ replicate (Z.to_nat max_num_points - length (flow row))
                    (astype 0%Z))
              (take (Z.to_nat max_num_points) (volume row)
               ++ replicate (Z.to_nat max_num_points - length (volume row))
                    (astype 0%Z))
              0 max_interp_volume max_num_points) as [fv Hfv].
  { lia. }
  { intros Heq. apply (f_equal length) in Heq.
    rewrite length_app, length_take, length_replicate in Heq.
    simpl in Heq. lia. }
  { rewrite !length_app, !length_take, !length_replicate. lia. }
  rewrite Hfv. cbn [mbind result_bind].
  assert (Hpos : (0 <= volume_max row)%Q).
  { apply (compute_volume_max_nonneg series volume_scale); try done.
    by rewrite <- Hv. }
  destruct (np_max_spec _ _ Hmax) as [Hin _].
  apply list_elem_of_lookup in Hin as [i Hi].
  destruct (compute_fef_is_ok (flow row) (volume row) (volume_max row))
    as [fef Hfef].
  { unfold Py.len. lia. }
  { unfold Py.len. lia. }
  { done. }
  { exists i, (volume_max row). split; [done|lra]. }
  unfold blow_fef. rewrite Hfef. cbn [mbind result_bind]. by eexists.
Qed.

(** X18: when the derivation of a blow succeeds.  For an [int64] series of
    non-negative samples, at the module's [VOLUME_SCALE] and whatever the
    time scale and the interpolation range, the composition of
    [derive_base_curves] and [derive_input_representations] succeeds on a row
    exactly when the series has at least two samples and [max_num_points] is
    at least one. *)
Theorem derive_blow_ok_iff (series : list Z) (time_scale : Q)
    (max_num_points : Z) (max_interp_volume : Q) :
  (∀ s, s ∈ series → 0 ≤ s < 2 ^ 63) →
  is_ok (derive_blow series VOLUME_SCALE time_scale max_num_points
           max_interp_volume)
  ↔ (2 ≤ length series)%nat ∧ 1 ≤ max_num_points.
Proof.
  intros Hnn. unfold derive_blow. split.
  - intros [reps Hrun].
    destruct (derive_base_curves_row series VOLUME_SCALE time_scale)
      as [row|] eqn:Hrow; cbn [mbind result_bind] in Hrun; [|done].
    pose proof (derive_input_representations_row_positive _ _ _ _ _ Hrun).
    split; [|done].
    apply derive_input_representations_row_Ok in Hrun
      as (_ & _ & _ & _ & _ & Hfef).
    apply derive_base_curves_row_fields in Hrow as (Hv & Hf & _ & _).
    unfold blow_fef in Hfef.
    destruct (decide (Py.len (flow row) ≠ Py.len (volume row)
                      ∨ Py.len (flow row) ≤ 1)) as [Hbad|Hgood].
    { by rewrite compute_fef_bad_size in Hfef. }
    assert (Hlen : Py.len (flow row) = Py.len (volume row) ∧
                   1 < Py.len (flow row)) by lia.
    destruct Hlen as [_ Hlen]. unfold Py.len in Hlen.
    rewrite Hf, Hv in Hlen. unfold compute_flow, compute_volume in Hlen.
    simpl in Hlen. rewrite length_fmap, np_diff_length, length_fmap in Hlen.
    lia.
  - intros [Hlen HN]. apply derive_blow_ok; [|done|done|done].
    intros s Hs. by apply Hnn.
Qed.

Lemma derive_blow_ok_iff_witness :
  is_ok (derive_blow [0; 1; 2; 3; 4] VOLUME_SCALE TIME_SCALE MAX_NUM_POINTS
           MAX_INTERP_VOLUME).
Proof.
  apply (derive_blow_ok_iff [0; 1; 2; 3; 4] TIME_SCALE MAX_NUM_POINTS
           MAX_INTERP_VOLUME).
  - intros s Hs.
    repeat (apply elem_of_cons in Hs as [->|Hs]; [lia|]).
    by apply elem_of_nil in Hs.
  - split; [simpl; lia | unfold MAX_NUM_POINTS; lia].
Defined.

(** X19: padding the flow with zeros agrees with deriving it from the
    plateau.  For a non-zero time scale, the zero-padded flow curve of a row
    equals, sample by sample, the flow computed from its last-value-padded
    volume curve: past the end of the blow the volume stays constant and its
    derivative is zero. *)
Theorem flow_pad_zero_of_plateau (row : base_curves)
    (max_num_points : Z) (max_interp_volume time_scale : Q)
    (reps : input_representations) :
  ¬ (time_scale == 0)%Q →
  row.(flow) = compute_flow row.(volume) time_scale →
  last row.(volume) = Some row.(volume_last) →
  derive_input_representations_row row max_num_points max_interp_volume
    time_scale = Ok reps →
  Forall2 Qeq reps.(flow_pad_zero)
    (compute_flow reps.(volume_pad_last) time_scale).
Proof.
  intros _ Hflow Hlast Hrun.
  pose proof (derive_input_representations_row_positive _ _ _ _ _ Hrun)
    as HN.
  apply derive_input_representations_row_Ok in Hrun
    as (_ & _ & Hvl & Hfz & _).
  apply right_pad_array_Ok in Hvl as (_ & Hvl & Hvlen).
  apply right_pad_array_Ok in Hfz as (_ & Hfz & Hflen).
  set (n := Z.to_nat max_num_points) in *.
  set (vl := volume_last row) in *.
  assert (Hvne : volume_pad_last reps ≠ []).
  { intros Heq. rewrite Heq in Hvlen. unfold Py.len in Hvlen.
    simpl in Hvlen. lia. }
  rewrite last_lookup in Hlast.
  apply Forall2_same_length_lookup_2.
  { rewrite compute_flow_length by done. unfold Py.len in *. lia. }
  intros i a b Ha Hb.
  assert (Hi : (i < n)%nat).
  { apply lookup_lt_Some in Ha. unfold Py.len in Hflen. lia. }
  rewrite Hfz, padded_lookup in Ha by done. injection Ha as <-.
  destruct i as [|k].
  - rewrite Hflow. unfold compute_flow in *. simpl in *.
    injection Hb as <-. reflexivity.
  - unfold compute_flow in Hb. rewrite lookup_cons in Hb.
    rewrite list_lookup_fmap in Hb.
    assert (Hpk : volume_pad_last reps !! k
                  = Some (default vl (volume row !! k))).
    { rewrite Hvl. apply padded_lookup. lia. }
    assert (HpSk : volume_pad_last reps !! S k
                   = Some (default vl (volume row !! S k))).
    { rewrite Hvl. by apply padded_lookup. }
    rewrite (np_diff_lookup _ _ _ _ Hpk HpSk) in Hb. simpl in Hb.
    injection Hb as <-.
    rewrite Hflow. unfold compute_flow. rewrite lookup_cons.
    rewrite list_lookup_fmap.
    destruct (volume row !! S k) as [y|] eqn:Hy.
    + destruct (volume row !! k) as [x|] eqn:Hx.
      2:{ apply lookup_ge_None in Hx. apply lookup_lt_Some in Hy. lia. }
      rewrite (np_diff_lookup _ _ _ _ Hx Hy). simpl. reflexivity.
    + apply lookup_ge_None in Hy.
      assert (Hnone : np_diff (volume row) !! k = None).
      { apply lookup_ge_None. rewrite np_diff_length. lia. }
      rewrite Hnone. simpl.
      assert (Hx : default vl (volume row !! k) = vl).
      { destruct (volume row !! k) as [x|] eqn:Hx; [|done]. simpl.
        apply lookup_lt_Some in Hx as Hlt.
        replace k with (pred (length (volume row))) in Hx by lia.
        congruence. }
      rewrite Hx. unfold astype, astype_int_float.
      change (inject_Z 0) with 0%Q. unfold Qdiv. ring.
Qed.

Lemma flow_pad_zero_of_plateau_witness :
  ∃ reps,
    derive_input_representations_row
      (BaseCurves [0; 1; 2]%Q 2 2 (compute_flow [0; 1; 2]%Q 1) 1 1) 5 6 1
    = Ok reps ∧
    Forall2 Qeq reps.(flow_pad_zero)
      (compute_flow reps.(volume_pad_last) 1).
Proof.
  eexists. split; [vm_compute; reflexivity|].
  assert (Hts : ¬ (1 == 0)%Q) by (intros Heq; discriminate Heq).
  apply (flow_pad_zero_of_plateau
           (BaseCurves [0; 1; 2]%Q 2 2 (compute_flow [0; 1; 2]%Q 1) 1 1)
           5 6 1 _ Hts eq_refl eq_refl eq_refl).
Defined.

(** ** [build_npy_files] *)

Lemma np_repeat_length {A} (a : list A) (n : Z) :
  length (np_repeat a n) = (length a * Z.to_nat n)%nat.
Proof.
  unfold np_repeat. induction a as [|x a IH]; [done|].
  rewrite bind_cons, length_app, length_replicate, IH. simpl. lia.
Qed.

Lemma np_repeat_one {A} (a : list A) : np_repeat a 1 = a.
Proof.
  unfold np_repeat. induction a as [|x a IH]; [done|].
  rewrite bind_cons, IH. done.
Qed.

Lemma np_repeat_Forall {A} (P : A → Prop) (a : list A) (n : Z) :
  1 ≤ n → Forall P (np_repeat a n) ↔ Forall P a.
Proof.
  intros Hn. unfold np_repeat. rewrite Forall_bind. split.
  - intros H. eapply Forall_impl; [exact H|]. intros x Hx. simpl in Hx.
    destruct (Z.to_nat n) as [|k] eqn:E; [lia|]. by inv Hx.
  - intros H. eapply Forall_impl; [exact H|]. intros x Hx.
    by apply Forall_replicate.
Qed.

Lemma np_repeat_lookup {A} (a : list A) (n : Z) (j : nat) :
  1 ≤ n → np_repeat a n !! j = a !! (j / Z.to_nat n)%nat.
Proof.
  intros Hn. unfold np_repeat.
  assert (Hk : (0 < Z.to_nat n)%nat) by lia.
  revert Hk. generalize (Z.to_nat n). clear Hn n. intros n Hn.
  revert j. induction a as [|x a IH]; intros j.
  - by rewrite !lookup_nil.
  - rewrite bind_cons. destruct (le_lt_dec n j) as [Hge|Hlt].
    + rewrite lookup_app_r by (rewrite length_replicate; lia).
      rewrite length_replicate, IH.
      replace (j / n)%nat with (S ((j - n) / n)); [done|].
      replace j with (1 * n + (j - n))%nat at 2 by lia.
      rewrite Nat.div_add_l by lia. lia.
    + rewrite lookup_app_l by (rewrite length_replicate; lia).
      rewrite Nat.div_small by lia. simpl. by apply lookup_replicate_2.
Qed.

Lemma has_shape_true (a : list (list (list Q))) (d0 : Z) (d1 d2 : nat) :
  has_shape a d0 d1 d2 = true ↔
  Py.len a = d0 ∧
  Forall (λ r, length r = d1 ∧ Forall (λ c : list Q, length c = d2) r) a.
Proof.
  unfold has_shape. rewrite andb_true_iff, Z.eqb_eq.
  apply and_iff_compat_l.
  rewrite forallb_forall, Forall_forall.
  setoid_rewrite <- list_elem_of_In.
  apply forall_proper. intros r. apply forall_proper. intros _.
  rewrite andb_true_iff, Nat.eqb_eq. apply and_iff_compat_l.
  rewrite forallb_forall, Forall_forall.
  setoid_rewrite <- list_elem_of_In.
  apply forall_proper. intros c. apply forall_proper. intros _.
  apply Nat.eqb_eq.
Qed.

Lemma np_array_uniform (rows : list (list Q)) (n : nat) :
  rows ≠ [] → Forall (λ r, length r = n) rows →
  np_array rows = Ok (Stacked2D rows).
Proof.
  destruct rows as [|r rest]; [done|]. intros _ Hall. simpl.
  inv Hall. rewrite (proj2 (forallb_forall _ _)); [done|].
  intros r' Hr'. apply list_elem_of_In in Hr'.
  rewrite Forall_forall in H2. rewrite (H2 r' Hr'). apply Nat.eqb_refl.
Qed.

Lemma np_array_Ok (rows : list (list Q)) (s : stacked) :
  np_array rows = Ok s →
  (rows = [] ∧ s = Stacked1D) ∨ (rows ≠ [] ∧ s = Stacked2D rows).
Proof.
  destruct rows as [|r rest]; simpl.
  - intros Hs. injection Hs as <-. by left.
  - destruct (forallb _ rest); [|done]. intros Hs. injection Hs as <-.
    by right.
Qed.

Lemma zip_with_fmap_diag {A B C D} (f : B → C → D) (g : A → B) (h : A → C)
    (l : list A) :
  zip_with f (g <$> l) (h <$> l) = (λ x, f (g x) (h x)) <$> l.
Proof. by rewrite zip_with_fmap_l, zip_with_fmap_r, zip_with_diag. Qed.

Lemma forallb_zip_fmap_diag {A B C} (p : B * C → bool) (g : A → B)
    (h : A → C) (l : list A) :
  forallb p (zip (g <$> l) (h <$> l)) = forallb (λ x, p (g x, h x)) l.
Proof.
  rewrite zip_with_fmap_diag.
  induction l as [|x l IH]; [done|]. csimpl. by rewrite IH.
Qed.

(** [np.concatenate] of two arrays built row by row from one frame. *)
Lemma np_concatenate_fmap (df : list input_representations)
    (g h : input_representations → list (list Q)) :
  np_concatenate (g <$> df) (h <$> df) =
    if forallb (λ r, (length (g r) =? length (h r))%nat) df
    then Ok ((λ r, zip_with app (g r) (h r)) <$> df)
    else Raise ValueError.
Proof.
  unfold np_concatenate. rewrite !length_fmap, Nat.eqb_refl.
  cbn [andb]. rewrite forallb_zip_fmap_diag. cbn [fst snd].
  by rewrite zip_with_fmap_diag.
Qed.

Lemma expand_fmap (df : list input_representations)
    (f : input_representations → list Q) :
  (λ r : list Q, (λ x, [x]) <$> r) <$> (f <$> df)
  = (λ r, (λ x, [x]) <$> f r) <$> df.
Proof. by rewrite <- list_fmap_compose. Qed.

Lemma flow_volume_channels_eq (r : input_representations) :
  zip_with app ((λ x, [x]) <$> flow_pad_zero r)
    ((λ x, [x]) <$> volume_pad_last r)
  = flow_volume_channels r.
Proof.
  unfold flow_volume_channels. by rewrite zip_with_fmap_l, zip_with_fmap_r.
Qed.

Lemma three_curves_channels_eq (r : input_representations) :
  zip_with app (flow_volume_channels r)
    ((λ x, [x]) <$> flow_volume_pad_zero r)
  = three_curves_channels r.
Proof. unfold three_curves_channels. by rewrite zip_with_fmap_r. Qed.

Lemma rep_np_repeat {A} (a : list A) (n : Z) :
  1 ≤ n → (if 1 <? n then np_repeat a n else a) = np_repeat a n.
Proof.
  intros Hn. destruct (Z.ltb_spec 1 n); [done|].
  replace n with 1 by lia. by rewrite np_repeat_one.
Qed.

Lemma fits_export_channels (r : input_representations) :
  fits_export r →
  (length (flow_volume_channels r) = 1000%nat ∧
   Forall (λ c : list Q, length c = 2%nat) (flow_volume_channels r)) ∧
  (length (flow_by_volume_channel r) = 1000%nat ∧
   Forall (λ c : list Q, length c = 1%nat) (flow_by_volume_channel r)) ∧
  (length (volume_by_time_channel r) = 1000%nat ∧
   Forall (λ c : list Q, length c = 1%nat) (volume_by_time_channel r)) ∧
  (length (three_curves_channels r) = 1000%nat ∧
   Forall (λ c : list Q, length c = 3%nat) (three_curves_channels r)).
Proof.
  intros (Hf & Hv & Hfv).
  assert (H2 : Forall (λ c : list Q, length c = 2%nat)
                 (flow_volume_channels r)).
  { apply Forall_forall. intros c Hc.
    apply elem_of_zip_with in Hc as (a & b & -> & _). done. }
  unfold flow_by_volume_channel, volume_by_time_channel,
    three_curves_channels.
  split_and!.
  - unfold flow_volume_channels. rewrite length_zip_with. lia.
  - done.
  - by rewrite length_fmap.
  - apply Forall_fmap, Forall_forall. by intros.
  - by rewrite length_fmap.
  - apply Forall_fmap, Forall_forall. by intros.
  - rewrite length_zip_with. unfold flow_volume_channels.
    rewrite length_zip_with. lia.
  - apply Forall_forall. intros c Hc.
    apply elem_of_zip_with in Hc as (ab & x & -> & Hab & _).
    rewrite Forall_forall in H2. rewrite length_app, (H2 ab Hab). done.
Qed.

Lemma has_shape_repeat (df : list input_representations)
    (g : input_representations → list (list Q)) (dup : Z) (d1 d2 : nat) :
  1 ≤ dup →
  Forall (λ r, length (g r) = d1 ∧
               Forall (λ c : list Q, length c = d2) (g r)) df →
  has_shape (np_repeat (g <$> df) dup) (Py.len df * dup) d1 d2 = true.
Proof.
  intros Hdup Hall. apply has_shape_true. split.
  - unfold Py.len. rewrite np_repeat_length, length_fmap. lia.
  - apply np_repeat_Forall; [done|]. by apply Forall_fmap.
Qed.

(** The run of [build_npy_files] on a frame whose curves all have the
    exported length. *)
Lemma build_npy_files_run (df : list input_representations) (dup : Z) :
  1 ≤ dup → df ≠ [] → Forall fits_export df →
  build_npy_files df dup =
    Ok {| flow_volume_in_channels :=
            np_repeat (flow_volume_channels <$> df) dup;
          flow_by_volume_one_channel :=
            np_repeat (flow_by_volume_channel <$> df) dup;
          volume_by_time_one_channel :=
            np_repeat (volume_by_time_channel <$> df) dup;
          three_curves_in_channels :=
            np_repeat (three_curves_channels <$> df) dup;
          derived_features :=
            replicate (Z.to_nat (Py.len df * dup)) (replicate 5 0%Q) |}.
Proof.
  intros Hdup Hne Hfit. unfold build_npy_files.
  destruct (Z.leb_spec 1 dup); [|lia]. cbn [py_assert mbind result_bind].
  unfold get_time_flow_volume_np.
  rewrite (np_array_uniform (flow_pad_zero <$> df) 1000).
  2:{ by destruct df. }
  2:{ apply Forall_fmap. eapply Forall_impl; [exact Hfit|]. by intros r (?&?&?). }
  rewrite (np_array_uniform (volume_pad_last <$> df) 1000).
  2:{ by destruct df. }
  2:{ apply Forall_fmap. eapply Forall_impl; [exact Hfit|]. by intros r (?&?&?). }
  cbn [mbind result_bind]. unfold join_flow_volume_in_channel.
  cbn [np_expand_dims mbind result_bind]. rewrite !expand_fmap.
  rewrite np_concatenate_fmap.
  rewrite (proj2 (forallb_forall _ _)).
  2:{ intros r Hr. apply list_elem_of_In in Hr.
      rewrite Forall_forall in Hfit. destruct (Hfit r Hr) as (Hf & Hv & _).
      rewrite !length_fmap, Hf, Hv. done. }
  cbn [mbind result_bind]. unfold get_flow_by_volume_np.
  rewrite (np_array_uniform (flow_volume_pad_zero <$> df) 1000).
  2:{ by destruct df. }
  2:{ apply Forall_fmap. eapply Forall_impl; [exact Hfit|]. by intros r (?&?&?). }
  cbn [np_expand_dims mbind result_bind]. rewrite !expand_fmap.
  rewrite np_concatenate_fmap.
  rewrite (proj2 (forallb_forall _ _)).
  2:{ intros r Hr. apply list_elem_of_In in Hr.
      rewrite Forall_forall in Hfit. destruct (Hfit r Hr) as (Hf & Hv & Hfv).
      rewrite length_zip_with, !length_fmap, Hf, Hv, Hfv. done. }
  cbn [mbind result_bind]. rewrite !rep_np_repeat by done.
  assert (HFV : (λ r, zip_with app ((λ x, [x]) <$> flow_pad_zero r)
                        ((λ x, [x]) <$> volume_pad_last r)) <$> df
                = flow_volume_channels <$> df).
  { apply list_fmap_ext. intros _ r _. apply flow_volume_channels_eq. }
  assert (HTC : (λ r, zip_with app
                        (zip_with app ((λ x, [x]) <$> flow_pad_zero r)
                           ((λ x, [x]) <$> volume_pad_last r))
                        ((λ x, [x]) <$> flow_volume_pad_zero r)) <$> df
                = three_curves_channels <$> df).
  { apply list_fmap_ext. intros _ r _.
    rewrite flow_volume_channels_eq. apply three_curves_channels_eq. }
  rewrite HFV, HTC.
  change ((λ r, (λ x, [x]) <$> flow_volume_pad_zero r) <$> df)
    with (flow_by_volume_channel <$> df).
  change ((λ r, (λ x, [x]) <$> volume_pad_last r) <$> df)
    with (volume_by_time_channel <$> df).
  assert (Hch := λ r Hr, fits_export_channels r
                           (proj1 (Forall_forall _ _) Hfit r Hr)).
  rewrite (has_shape_repeat df flow_volume_channels dup 1000 2) by
    (try done; apply Forall_forall; intros r Hr; apply (Hch r Hr)).
  rewrite (has_shape_repeat df flow_by_volume_channel dup 1000 1) by
    (try done; apply Forall_forall; intros r Hr; apply (Hch r Hr)).
  rewrite (has_shape_repeat df volume_by_time_channel dup 1000 1) by
    (try done; apply Forall_forall; intros r Hr; apply (Hch r Hr)).
  rewrite (has_shape_repeat df three_curves_channels dup 1000 3) by
    (try done; apply Forall_forall; intros r Hr; apply (Hch r Hr)).
  cbn [py_assert mbind result_bind].
  assert (Hdf : has_shape2
            (replicate (Z.to_nat (Py.len df * dup)) (replicate 5 0%Q))
            (Py.len df * dup) 5 = true).
  { unfold has_shape2. apply andb_true_iff. split.
    - apply Z.eqb_eq. unfold Py.len. rewrite length_replicate. lia.
    - apply forallb_forall. intros r Hr. apply list_elem_of_In in Hr.
      by apply elem_of_replicate_inv in Hr as ->. }
  rewrite Hdf. done.
Qed.

(** What a successful run of [build_npy_files] requires. *)
Lemma build_npy_files_Ok (df : list input_representations) (dup : Z)
    (files : npy_files) :
  build_npy_files df dup = Ok files →
  1 ≤ dup ∧ df ≠ [] ∧ Forall fits_export df.
Proof.
  unfold build_npy_files.
  destruct (Z.leb_spec 1 dup) as [Hdup|]; cbn [py_assert mbind result_bind];
    [|done].
  unfold get_time_flow_volume_np.
  destruct (np_array (flow_pad_zero <$> df)) as [s1|] eqn:H1;
    cbn [mbind result_bind]; [|done].
  destruct (np_array (volume_pad_last <$> df)) as [s2|] eqn:H2;
    cbn [mbind result_bind]; [|done].
  unfold join_flow_volume_in_channel.
  apply np_array_Ok in H1 as [[Hnil ->]|[Hne1 ->]];
    cbn [np_expand_dims mbind result_bind]; [done|].
  apply np_array_Ok in H2 as [[Hnil ->]|[_ ->]];
    cbn [np_expand_dims mbind result_bind]; [done|].
  assert (Hne : df ≠ []) by (by intros ->).
  rewrite !expand_fmap, np_concatenate_fmap.
  destruct (forallb _ df) eqn:Hc1; cbn [mbind result_bind]; [|done].
  unfold get_flow_by_volume_np.
  destruct (np_array (flow_volume_pad_zero <$> df)) as [s3|] eqn:H3;
    cbn [mbind result_bind]; [|done].
  apply np_array_Ok in H3 as [[Hnil ->]|[_ ->]];
    cbn [np_expand_dims mbind result_bind]; [done|].
  rewrite !expand_fmap, np_concatenate_fmap.
  match goal with
  | |- context [if ?b then _ else Raise ValueError] => destruct b eqn:Hc2
  end; cbn [mbind result_bind]; [|done].
  rewrite !rep_np_repeat by done.
  destruct (has_shape _ _ 1000 2) eqn:Hs1; cbn [py_assert mbind result_bind];
    [|intros; discriminate].
  destruct (has_shape
              (np_repeat
                 ((λ r, (λ x, [x]) <$> flow_volume_pad_zero r) <$> df) dup)
              _ 1000 1) eqn:Hs2;
    cbn [py_assert mbind result_bind]; [|intros; discriminate].
  intros _. split; [done|]. split; [done|].
  apply has_shape_true in Hs1 as [_ Hs1].
  apply has_shape_true in Hs2 as [_ Hs2].
  apply np_repeat_Forall in Hs1; [|done].
  apply np_repeat_Forall in Hs2; [|done].
  rewrite Forall_fmap in Hs1. rewrite Forall_fmap in Hs2.
  rewrite Forall_forall in Hs1. rewrite Forall_forall in Hs2.
  rewrite forallb_forall in Hc1.
  apply Forall_forall. intros r Hr.
  destruct (Hs1 r Hr) as [Hl1 _]. destruct (Hs2 r Hr) as [Hl2 _].
  pose proof (Hc1 r (proj1 (list_elem_of_In _ _) Hr)) as Hl.
  apply Nat.eqb_eq in Hl. simpl in Hl1, Hl2.
  rewrite length_zip_with, !length_fmap in Hl1.
  rewrite !length_fmap in Hl. rewrite length_fmap in Hl2.
  unfold fits_export. lia.
Qed.

(** X20: when [build_npy_files] succeeds.  It succeeds exactly when
    [duplicates] is at least one, the frame has at least one row, and in
    every row the padded flow, the last-value-padded volume and the
    flow-volume curve all have length 1000, the length its shape assertions
    name; and [duplicates < 1] is an [AssertionError] whatever the frame. *)
Theorem build_npy_files_ok_iff (df : list input_representations)
    (duplicates : Z) :
  (is_ok (build_npy_files df duplicates)
   ↔ 1 ≤ duplicates ∧ df ≠ [] ∧ Forall fits_export df) ∧
  (duplicates < 1 → build_npy_files df duplicates = Raise AssertionError).
Proof.
  split.
  - split.
    + intros [files Hrun]. by apply build_npy_files_Ok in Hrun.
    + intros (Hdup & Hne & Hfit).
      rewrite build_npy_files_run by done. by eexists.
  - intros Hdup. unfold build_npy_files.
    by destruct (Z.leb_spec 1 duplicates); [lia|].
Qed.

(** X21: what [build_npy_files] exports.  On success the four arrays hold,
    for every row of the frame and [duplicates] times in a row, the padded
    flow and last-value-padded volume side by side, the flow-volume curve,
    the padded volume, and all three curves side by side; the derived
    features are [len(df) * duplicates] rows of five zeros; and row [j] of
    an exported array comes from row [j / duplicates] of the frame. *)
Theorem build_npy_files_contents (df : list input_representations)
    (duplicates : Z) (files : npy_files) :
  build_npy_files df duplicates = Ok files →
  files.(flow_volume_in_channels)
    = np_repeat (flow_volume_channels <$> df) duplicates ∧
  files.(flow_by_volume_one_channel)
    = np_repeat (flow_by_volume_channel <$> df) duplicates ∧
  files.(volume_by_time_one_channel)
    = np_repeat (volume_by_time_channel <$> df) duplicates ∧
  files.(three_curves_in_channels)
    = np_repeat (three_curves_channels <$> df) duplicates ∧
  files.(derived_features)
    = replicate (length df * Z.to_nat duplicates) [0; 0; 0; 0; 0]%Q ∧
  ∀ j : nat,
    files.(three_curves_in_channels) !! j
    = three_curves_channels <$> df !! (j / Z.to_nat duplicates)%nat.
Proof.
  intros Hrun.
  destruct (build_npy_files_Ok _ _ _ Hrun) as (Hdup & Hne & Hfit).
  rewrite build_npy_files_run in Hrun by done. injection Hrun as <-.
  cbn [flow_volume_in_channels flow_by_volume_one_channel
       volume_by_time_one_channel three_curves_in_channels derived_features].
  split_and!; try done.
  - f_equal. unfold Py.len. lia.
  - intros j. rewrite np_repeat_lookup by done. apply list_lookup_fmap.
Qed.

Lemma build_npy_files_contents_witness :
  ∃ files,
    build_npy_files
      [InputRepresentations [] [] (replicate 1000 2%Q) (replicate 1000 1%Q)
         (replicate 1000 3%Q) 0 0 0 0] 2 = Ok files ∧
    files.(derived_features) = [[0; 0; 0; 0; 0]; [0; 0; 0; 0; 0]]%Q ∧
    files.(three_curves_in_channels) !! 1%nat
    = Some (replicate 1000 [1; 2; 3]%Q).
Proof.
  eexists. split; [vm_compute; reflexivity|].
  destruct (build_npy_files_contents
              [InputRepresentations [] [] (replicate 1000 2%Q)
                 (replicate 1000 1%Q) (replicate 1000 3%Q) 0 0 0 0] 2 _
              eq_refl) as (_ & _ & _ & _ & Hdf & Hrow).
  split; [exact Hdf | exact (Hrow 1%nat)].
Defined.

Lemma derive_input_representations_row_fits (row : base_curves)
    (max_num_points : Z) (max_interp_volume time_scale : Q)
    (reps : input_representations) :
  derive_input_representations_row row max_num_points max_interp_volume
    time_scale = Ok reps →
  Py.len reps.(flow_pad_zero) = max_num_points ∧
  Py.len reps.(volume_pad_last) = max_num_points ∧
  Py.len reps.(flow_volume_pad_zero) = max_num_points.
Proof.
  intros Hrun.
  apply derive_input_representations_row_Ok in Hrun
    as (_ & _ & Hvl & Hfz & Hfv & _).
  apply right_pad_array_Ok in Hvl as (_ & _ & Hvl).
  apply right_pad_array_Ok in Hfz as (_ & _ & Hfz).
  by apply compute_flow_volume_length in Hfv.
Qed.

(** X22: only [max_num_points = 1000] can be exported.  A row derived by
    [derive_input_representations] passes the shape assertions of
    [build_npy_files] exactly when it was derived with [max_num_points]
    equal to 1000; a frame holding a row derived with another value makes
    [build_npy_files] fail. *)
Theorem export_needs_1000_points (row : base_curves)
    (max_num_points : Z) (max_interp_volume time_scale : Q)
    (reps : input_representations) :
  derive_input_representations_row row max_num_points max_interp_volume
    time_scale = Ok reps →
  (fits_export reps ↔ max_num_points = 1000) ∧
  (max_num_points ≠ 1000 →
   ∀ df duplicates, reps ∈ df → ¬ is_ok (build_npy_files df duplicates)).
Proof.
  intros Hrun.
  apply derive_input_representations_row_fits in Hrun as (Hf & Hv & Hfv).
  unfold Py.len in *.
  assert (Hiff : fits_export reps ↔ max_num_points = 1000).
  { unfold fits_export. split.
    - intros (Hf' & _ & _). rewrite Hf' in Hf. by rewrite <- Hf.
    - intros ->. split_and!; apply Nat2Z.inj; by rewrite ?Hf, ?Hv, ?Hfv. }
  split; [done|].
  intros HN df dup Hin [files Hok].
  apply build_npy_files_Ok in Hok as (_ & _ & Hfit).
  rewrite Forall_forall in Hfit. apply HN, Hiff, Hfit, Hin.
Qed.

Lemma export_needs_1000_points_witness :
  ∃ reps,
    derive_input_representations_row
      (BaseCurves [0; 1; 2]%Q 2 2 [0; 1; 1]%Q 1 1) 5 6 1 = Ok reps ∧
    ¬ is_ok (build_npy_files [reps] 1).
Proof.
  eexists. split; [vm_compute; reflexivity|].
  destruct (export_needs_1000_points
              (BaseCurves [0; 1; 2]%Q 2 2 [0; 1; 1]%Q 1 1) 5 6 1 _ eq_refl)
    as [_ Hfail].
  apply Hfail; [lia | apply list_elem_of_here].
Defined.

(** ** [main]: from the records to the exported arrays *)

Lemma derive_blow_fits (series : list Z) (reps : input_representations) :
  derive_blow series VOLUME_SCALE TIME_SCALE MAX_NUM_POINTS MAX_INTERP_VOLUME
  = Ok reps →
  fits_export reps.
Proof.
  unfold derive_blow.
  destruct (derive_base_curves_row _ _ _) as [row|]; cbn [mbind result_bind];
    [|done].
  intros Hrun.
  apply derive_input_representations_row_fits in Hrun as (Hf & Hv & Hfv).
  unfold Py.len, MAX_NUM_POINTS in *. unfold fits_export.
  split_and!; apply Nat2Z.inj; by rewrite ?Hf, ?Hv, ?Hfv.
Qed.

Lemma derive_frame_ok (df : DataFrame) :
  Forall (λ row : dict, ∃ series,
            row !! SPIRO_RECORD_SERIES_KEY = Some (PySeq series) ∧
            (2 ≤ length series)%nat ∧ ∀ s, s ∈ series → 0 ≤ s) df →
  ∃ rows,
    Forall2 (λ (row : dict) reps, ∃ series,
               row !! SPIRO_RECORD_SERIES_KEY = Some (PySeq series) ∧
               derive_blow series VOLUME_SCALE TIME_SCALE MAX_NUM_POINTS
                 MAX_INTERP_VOLUME = Ok reps) df rows ∧
    Forall fits_export rows.
Proof.
  induction 1 as [|row df (series & Hs & Hlen & Hnn) _ (rows & Hrows & Hfit)].
  - exists []. split; constructor.
  - destruct (derive_blow_ok series VOLUME_SCALE TIME_SCALE MAX_NUM_POINTS
                MAX_INTERP_VOLUME) as [reps Hreps];
      [done | reflexivity | done | unfold MAX_NUM_POINTS; lia |].
    exists (reps :: rows). split; constructor; try done.
    + by exists series.
    + by apply (derive_blow_fits series).
Qed.

(** X23: [main] succeeds on well-formed records.  For a non-empty list of
    records that satisfy the blow invariant with a non-empty zero padding and
    hold non-negative samples, and for [duplicates >= 1]: [trim_records]
    succeeds, every row of its dataframe goes through [derive_base_curves]
    and [derive_input_representations] with the module's constants, and
    [build_npy_files] accepts the result. *)
Theorem main_succeeds (h : heap) (records : list loc) (duplicates : Z) :
  records ≠ [] →
  (∀ r, r ∈ records →
     padded_blow (deref h r) ∧ nonnegative_series (deref h r)) →
  1 ≤ duplicates →
  ∃ h' df rows,
    trim_records h records = (h', Ok df) ∧
    Forall2 (λ (row : dict) reps, ∃ series,
               row !! SPIRO_RECORD_SERIES_KEY = Some (PySeq series) ∧
               derive_blow series VOLUME_SCALE TIME_SCALE MAX_NUM_POINTS
                 MAX_INTERP_VOLUME = Ok reps) df rows ∧
    is_ok (build_npy_files rows duplicates).
Proof.
  intros Hne Hall Hdup.
  destruct (trim_loop_padded records h) as [h' Hrun].
  { intros r Hr. by apply Hall. }
  destruct (derive_frame_ok (deref h' <$> records)) as (rows & Hrows & Hfit).
  { apply Forall_fmap, Forall_forall. intros r Hr. simpl.
    destruct (Hall r Hr) as [Hpad Hnn].
    destruct (padded_blow_inv _ Hpad) as (s & n & Hs & Hn & H1 & Hlt & Hz).
    destruct (trimmed_series_of_padded _ _ _ Hs Hn) as (t & _ & Ht & Hlen & _);
      [lia | done | done |].
    exists t. split_and!.
    - rewrite Ht. apply (trim_loop_series _ _ _ Hrun); try done. lia.
    - unfold Py.len in Hlen. lia.
    - intros x Hx. apply (Hnn s Hs). rewrite Ht in Hx.
      unfold Py.slice_from in Hx.
      apply list_elem_of_lookup in Hx as [i Hi]. rewrite lookup_drop in Hi.
      apply list_elem_of_lookup. eauto. }
  exists h', (deref h' <$> records), rows. split_and!.
  - unfold trim_records. by rewrite Hrun.
  - done.
  - rewrite build_npy_files_run; [by eexists | done | | done].
    intros ->. apply Forall2_nil_inv_r in Hrows.
    by apply fmap_nil_inv in Hrows.
Qed.

Lemma main_succeeds_witness :
  ∃ h' df rows,
    trim_records example_heap [0%nat] = (h', Ok df) ∧
    Forall2 (λ (row : dict) reps, ∃ series,
               row !! SPIRO_RECORD_SERIES_KEY = Some (PySeq series) ∧
               derive_blow series VOLUME_SCALE TIME_SCALE MAX_NUM_POINTS
                 MAX_INTERP_VOLUME = Ok reps) df rows ∧
    is_ok (build_npy_files rows 3).
Proof.
  apply (main_succeeds example_heap [0%nat] 3); [done| |lia].
  intros r Hr. apply list_elem_of_singleton in Hr as ->.
  split; [split|].
  - exists [0; 0; 0; 1; 2; 3; 4], 4.
    split; [reflexivity|]. split; [reflexivity|].
    split; [lia|]. split; [vm_compute; discriminate|].
    intros i x Hi Hx. change (Py.len _) with 7 in Hi.
    destruct i as [|[|[|i]]]; simpl in Hx; try congruence. lia.
  - exists [0; 0; 0; 1; 2; 3; 4], 4.
    split; [reflexivity|]. split; [reflexivity|]. reflexivity.
  - intros series Hs s Hin. vm_compute in Hs. injection Hs as <-.
    repeat (apply elem_of_cons in Hin as [->|Hin]; [lia|]).
    by apply elem_of_nil in Hin.
Defined.
